(** * raycast_demo: the DDA grid ray caster and the dotted-line helper

    A shallow embedding of [src/main.c].  The C type [float] is IEEE-754
    binary32; it is modelled by the Standard Library's executable
    specification of floating-point numbers ([spec_float]) instantiated
    at precision 24 and maximal exponent 128, every operation being
    rounded on its own (round to nearest, ties to even; no fused
    multiply-add, no excess precision).  The C type
    [int] is a 32-bit signed integer, modelled in [Z]; a signed overflow
    and a float-to-int conversion whose value does not fit are undefined
    behaviour in C and stop the model with [Undefined]. *)

From Stdlib Require Import ZArith QArith Qabs List Bool Lia.
From Stdlib Require Import Floats.SpecFloat.
Import ListNotations.

Local Open Scope Z_scope.

(** ** binary32 arithmetic *)

Module F32.

Definition prec : Z := 24.
Definition emax : Z := 128.

Definition float : Type := spec_float.

Definition add : float -> float -> float := SFadd prec emax.
Definition sub : float -> float -> float := SFsub prec emax.
Definition mul : float -> float -> float := SFmul prec emax.
Definition div : float -> float -> float := SFdiv prec emax.
Definition sqrtf : float -> float := SFsqrt prec emax.

(** The C comparisons [<], [<=], [>] and [==]: false on a NaN. *)
Definition ltb : float -> float -> bool := SFltb.
Definition leb : float -> float -> bool := SFleb.
Definition gtb (a b : float) : bool := SFltb b a.
Definition eqb : float -> float -> bool := SFeqb.

Definition zero : float := S754_zero false.

(** [(float)n] for an integer [n]: the nearest binary32 value. *)
Definition of_int (n : Z) : float := binary_normalize prec emax n 0 false.

Definition is_finite (f : float) : bool :=
  match f with
  | S754_zero _ | S754_finite _ _ _ => true
  | S754_infinity _ | S754_nan => false
  end.

(** A value a binary32 variable can hold. *)
Definition valid (f : float) : bool := valid_binary prec emax f.

(** The magnitude of a finite float with its fraction discarded. *)
Definition magnitude (m : positive) (e : Z) : Z :=
  match e with
  | Zneg p => Z.shiftr (Zpos m) (Zpos p)
  | _ => Z.shiftl (Zpos m) e
  end.

(** Is the value of [m * 2^e] an integer? *)
Definition integral (m : positive) (e : Z) : bool :=
  match e with
  | Zneg p => Zpos m =? Z.shiftl (Z.shiftr (Zpos m) (Zpos p)) (Zpos p)
  | _ => true
  end.

(** [m * 2^k]. *)
Definition shl (k : nat) (m : positive) : positive := Nat.iter k xO m.

(** Rounding towards zero, as the C conversion to an integer type does;
    no value for an infinity or a NaN. *)
Definition trunc (f : float) : option Z :=
  match f with
  | S754_zero _ => Some 0
  | S754_finite s m e => Some (if s then - magnitude m e else magnitude m e)
  | S754_infinity _ | S754_nan => None
  end.

(** Rounding towards minus infinity. *)
Definition floor (f : float) : option Z :=
  match f with
  | S754_zero _ => Some 0
  | S754_finite false m e => Some (magnitude m e)
  | S754_finite true m e =>
      Some (if integral m e then - magnitude m e else - magnitude m e - 1)
  | S754_infinity _ | S754_nan => None
  end.


End F32.

Abbreviation float := F32.float.

(** ** The C type [int] *)

Definition INT_MIN : Z := - 2147483648.
Definition INT_MAX : Z := 2147483647.

Definition in_int (n : Z) : bool := (INT_MIN <=? n) && (n <=? INT_MAX).

(** What a run of C code comes to. *)
Inductive outcome (A : Type) : Type :=
| Returns (a : A)     (* the code ran to its end *)
| Undefined           (* signed overflow, conversion out of range *)
| BadRead             (* a read outside the allocated grid *)
| Timeout.            (* the model's fuel ran out before the loop ended *)

Arguments Returns {A} a.
Arguments Undefined {A}.
Arguments BadRead {A}.
Arguments Timeout {A}.

Definition bind {A B : Type} (c : outcome A) (k : A -> outcome B) : outcome B :=
  match c with
  | Returns a => k a
  | Undefined => Undefined
  | BadRead => BadRead
  | Timeout => Timeout
  end.

Notation "x <- c ;; k" := (bind c (fun x => k))
  (at level 61, c at next level, right associativity).

(** [a + b] on [int]. *)
Definition int_add (a b : Z) : outcome Z :=
  if in_int (a + b) then Returns (a + b) else Undefined.

(** [(int)f]. *)
Definition float_to_int (f : float) : outcome Z :=
  match F32.trunc f with
  | Some n => if in_int n then Returns n else Undefined
  | None => Undefined
  end.

(** ** raylib's [Vector2] *)

Record Vector2 : Type := mkVector2 { vx : float; vy : float }.

(** ** The occupancy grid: [int** map], an array of rows. *)

Definition Map : Type := list (list Z).

(** [map[row][col]]; no value outside the allocated rows and columns. *)
Definition read (map : Map) (row col : Z) : option Z :=
  if (row <? 0) || (col <? 0) then None
  else match nth_error map (Z.to_nat row) with
       | Some cells => nth_error cells (Z.to_nat col)
       | None => None
       end.

(** The grid has [map_rows] rows of [map_cols] cells each. *)
Definition well_formed (map : Map) (map_rows map_cols : Z) : bool :=
  (Z.of_nat (length map) =? map_rows)
  && forallb (fun cells => Z.of_nat (length cells) =? map_cols) map.

(** ** castRayDDA *)

(** The variables the traversal loop updates. *)
Record RayState : Type := mkRayState {
  cur_map_x : Z;
  cur_map_y : Z;
  ray_len : Vector2;
  has_hit_wall : bool;
  distance : float
}.

Section Traversal.

(** [nearer] is the test [ray_len.x < ray_len.y] that picks the axis
    to advance: [F32.ltb] in the source. *)
Variable nearer : float -> float -> bool.

Variable map : Map.
Variables map_rows map_cols : Z.
Variables tile_size max_distance : float.
Variable step_dir : Vector2.
Variables step_x step_y : Z.

(** One run of the body of the [while] loop. *)
Definition loop_body (st : RayState) : outcome RayState :=
  moved <-
    (if nearer (vx (ray_len st)) (vy (ray_len st)) then
       x' <- int_add (cur_map_x st) step_x ;;
       Returns (x', cur_map_y st, vx (ray_len st),
                mkVector2 (F32.add (vx (ray_len st)) (F32.mul (vx step_dir) tile_size))
                          (vy (ray_len st)))
     else
       y' <- int_add (cur_map_y st) step_y ;;
       Returns (cur_map_x st, y', vy (ray_len st),
                mkVector2 (vx (ray_len st))
                          (F32.add (vy (ray_len st)) (F32.mul (vy step_dir) tile_size)))) ;;
  let '(x', y', d, len) := moved in
  if (x' >=? 0) && (x' <? map_cols) && (y' >=? 0) && (y' <? map_rows) then
    match read map y' x' with
    | Some cell =>
        Returns (mkRayState x' y' len (if cell =? 1 then true else has_hit_wall st) d)
    | None => BadRead
    end
  else Returns (mkRayState x' y' len (has_hit_wall st) d).

(** The loop condition [!has_hit_wall && distance < max_distance]. *)
Definition running (st : RayState) : bool :=
  negb (has_hit_wall st) && F32.ltb (distance st) max_distance.

(** The [while] loop, run for at most [fuel] iterations. *)
Fixpoint traverse (fuel : nat) (st : RayState) : outcome RayState :=
  if running st then
    match fuel with
    | O => Timeout
    | S fuel' => st' <- loop_body st ;; traverse fuel' st'
    end
  else Returns st.

End Traversal.

Section CastRay.

Variable nearer : float -> float -> bool.

Definition one : float := F32.of_int 1.

(** The initial [ray_len] along one axis. *)
Definition first_boundary (step cur : Z) (pos tile_size dir_len : float) : outcome float :=
  if step =? -1 then
    Returns (F32.mul (F32.sub pos (F32.mul (F32.of_int cur) tile_size)) dir_len)
  else
    next <- int_add cur 1 ;;
    Returns (F32.mul (F32.sub (F32.mul (F32.of_int next) tile_size) pos) dir_len).

Definition step_dir_of (direction : Vector2) : Vector2 :=
  mkVector2
    (F32.sqrtf (F32.add one (F32.mul (F32.div (vy direction) (vx direction))
                                     (F32.div (vy direction) (vx direction)))))
    (F32.sqrtf (F32.add one (F32.mul (F32.div (vx direction) (vy direction))
                                     (F32.div (vx direction) (vy direction))))).

Definition step_of (component : float) : Z :=
  if F32.ltb component F32.zero then -1 else 1.

(** The state on entry to the loop. *)
Definition initial_state (start_pos direction : Vector2) (tile_size : float)
  : outcome RayState :=
  let step_dir := step_dir_of direction in
  x0 <- float_to_int (F32.div (vx start_pos) tile_size) ;;
  y0 <- float_to_int (F32.div (vy start_pos) tile_size) ;;
  lx <- first_boundary (step_of (vx direction)) x0 (vx start_pos) tile_size (vx step_dir) ;;
  ly <- first_boundary (step_of (vy direction)) y0 (vy start_pos) tile_size (vy step_dir) ;;
  Returns (mkRayState x0 y0 (mkVector2 lx ly) false F32.zero).

Definition cast_ray (fuel : nat) (start_pos direction : Vector2) (map : Map)
  (map_rows map_cols : Z) (tile_size max_distance : float) : outcome float :=
  st0 <- initial_state start_pos direction tile_size ;;
  st <- traverse nearer map map_rows map_cols tile_size max_distance
          (step_dir_of direction) (step_of (vx direction)) (step_of (vy direction))
          fuel st0 ;;
  Returns (if has_hit_wall st then distance st else max_distance).

End CastRay.

(** The function of the source: the x axis advances when
    [ray_len.x < ray_len.y], the y axis otherwise. *)
Definition castRayDDA := cast_ray F32.ltb.


(** ** Boundary distances

    [ray_len] along one axis after [k] advances of that axis: the first
    boundary distance and [k] additions of [step_dir * tile_size], each
    rounded as the loop rounds them. *)
Definition boundary (inc first : float) (k : nat) : float :=
  Nat.iter k (fun len => F32.add len inc) first.

Definition boundary_x (direction : Vector2) (tile_size : float) (st0 : RayState) : nat -> float :=
  boundary (F32.mul (vx (step_dir_of direction)) tile_size) (vx (ray_len st0)).

Definition boundary_y (direction : Vector2) (tile_size : float) (st0 : RayState) : nat -> float :=
  boundary (F32.mul (vy (step_dir_of direction)) tile_size) (vy (ray_len st0)).

(** The cell indices stay in [int] for [n] advances either way. *)
Definition room (cur : Z) (n : nat) : bool :=
  in_int (cur - Z.of_nat n) && in_int (cur + Z.of_nat n).

(** ** Grids *)

Definition occupied (map : Map) (row col : Z) : bool :=
  match read map row col with
  | Some cell => cell =? 1
  | None => false
  end.

(** No cell of the grid is flagged. *)
Definition unoccupied (map : Map) : bool :=
  forallb (forallb (fun cell => negb (cell =? 1))) map.

Definition indices (n : Z) : list Z := List.map Z.of_nat (seq 0 (Z.to_nat n)).

(** The columns of the walls of a row, and the rows of the walls of a column. *)
Definition walls_in_row (map : Map) (map_cols row : Z) : list Z :=
  filter (fun col => occupied map row col) (indices map_cols).


(** ** Ties

    [no_tie fuel st] holds when the traversal of the source, run from [st]
    for at most [fuel] iterations, never compares two equal boundary
    distances. *)
Section Ties.

Variable map : Map.
Variables map_rows map_cols : Z.
Variables tile_size max_distance : float.
Variable step_dir : Vector2.
Variables step_x step_y : Z.


End Ties.


(** ** raymath

    The source includes raylib's [raymath.h] for its vector functions;
    the header is not part of the repository. *)

(** Modelled from the spec: [Vector2Add] of [raymath.h], the sum by
    components, on which the rasterizer walks "from start toward end". *)
Definition Vector2Add (v1 v2 : Vector2) : Vector2 :=
  mkVector2 (F32.add (vx v1) (vx v2)) (F32.add (vy v1) (vy v2)).

(** Modelled from the spec: [Vector2Subtract] of [raymath.h], the
    difference by components ("direction from start to end"). *)
Definition Vector2Subtract (v1 v2 : Vector2) : Vector2 :=
  mkVector2 (F32.sub (vx v1) (vx v2)) (F32.sub (vy v1) (vy v2)).

(** Modelled from the spec: [Vector2Scale] of [raymath.h], the product
    by a scalar. *)
Definition Vector2Scale (v : Vector2) (scale : float) : Vector2 :=
  mkVector2 (F32.mul (vx v) scale) (F32.mul (vy v) scale).

(** Modelled from the spec: [Vector2Distance] of [raymath.h], the
    Euclidean [distance(start, end)]. *)
Definition Vector2Distance (v1 v2 : Vector2) : float :=
  F32.sqrtf (F32.add (F32.mul (F32.sub (vx v1) (vx v2)) (F32.sub (vx v1) (vx v2)))
                     (F32.mul (F32.sub (vy v1) (vy v2)) (F32.sub (vy v1) (vy v2)))).

Definition Vector2Zero : Vector2 := mkVector2 F32.zero F32.zero.

(** Modelled from the spec: [Vector2Normalize] of [raymath.h], the unit
    direction; the normalization is guarded, dividing only when the
    length is positive and giving the zero vector otherwise. *)
Definition Vector2Normalize (v : Vector2) : Vector2 :=
  let length := F32.sqrtf (F32.add (F32.mul (vx v) (vx v)) (F32.mul (vy v) (vy v))) in
  if F32.gtb length F32.zero then
    let ilength := F32.div one length in
    mkVector2 (F32.mul (vx v) ilength) (F32.mul (vy v) ilength)
  else Vector2Zero.

(** ** drawDottedLine *)

(** A call of [DrawLineV]. *)
Definition Segment : Type := (Vector2 * Vector2)%type.

(** The [for] loop with [n] iterations left, at index [i]; the result is
    the sequence of [DrawLineV] calls. *)
Fixpoint dotted_loop (dir : Vector2) (len : float) (n : nat) (i : Z) (start_pos : Vector2)
  : list Segment :=
  match n with
  | O => []
  | S n' =>
      let start_pos' := Vector2Add start_pos (Vector2Scale dir len) in
      let end_pos' := Vector2Add start_pos' (Vector2Scale dir len) in
      (if Z.rem i 2 =? 0 then [(start_pos', end_pos')] else [])
      ++ dotted_loop dir len n' (i + 1) start_pos'
  end.

Definition two : float := F32.of_int 2.

(** [drawDottedLine] for a dash length [len]. *)
Definition dotted_line (len : float) (start_pos end_pos : Vector2) : outcome (list Segment) :=
  let dir := Vector2Normalize (Vector2Subtract end_pos start_pos) in
  let full_distance := Vector2Distance start_pos end_pos in
  steps <- float_to_int (F32.div full_distance (F32.mul len two)) ;;
  Returns (dotted_loop dir len (Z.to_nat steps) 0 start_pos).

(** The source fixes [len = 4.0f]. *)
Definition drawDottedLine : Vector2 -> Vector2 -> outcome (list Segment) :=
  dotted_line (F32.of_int 4).



(** ** Inputs used below *)

Definition fl (n : Z) : float := F32.of_int n.
Definition vec (a b : Z) : Vector2 := mkVector2 (fl a) (fl b).

Definition empty_map (rows cols : nat) : Map := repeat (repeat 0 cols) rows.

Fixpoint set_nth {A : Type} (n : nat) (a : A) (l : list A) {struct l} : list A :=
  match l, n with
  | [], _ => []
  | _ :: t, O => a :: t
  | h :: t, S n' => h :: set_nth n' a t
  end.

(** The grid with [map[row][col] = flag], when there is such a cell. *)
Definition set_cell (row col flag : Z) (m : Map) : Map :=
  if (row <? 0) || (col <? 0) then m
  else set_nth (Z.to_nat row) (set_nth (Z.to_nat col) flag (nth (Z.to_nat row) m [])) m.

Definition wall_at (row col : Z) (m : Map) : Map := set_cell row col 1 m.

Definition infinity : float := S754_infinity false.

(** *** A long ray over unit cells

    From the origin along the x axis over cells of size 1, with a budget
    of [2^25]. *)
Module LongRay.

Definition map : Map := [[0]].
Definition start_pos : Vector2 := vec 0 0.
Definition direction : Vector2 := vec 1 0.
Definition tile_size : float := fl 1.
Definition max_distance : float := fl 33554432.

(** The state after [j] iterations, for [j < 2^24] ... *)
Definition climbing (j : Z) : RayState :=
  mkRayState j 0 (mkVector2 (fl (j + 1)) infinity) false (fl j).

(** ... and from then on: [2^24 + 1] rounds to [2^24]. *)
Definition stalled (c : Z) : RayState :=
  mkRayState c 0 (mkVector2 (fl 16777216) infinity) false (fl 16777216).

Definition run : nat -> RayState -> outcome RayState :=
  traverse F32.ltb map 1 1 tile_size max_distance (step_dir_of direction)
    (step_of (vx direction)) (step_of (vy direction)).

End LongRay.

(** The directions of the two axes. *)
Definition unit_x : Vector2 := vec 1 0.
Definition unit_y : Vector2 := vec 0 1.

(** *** The scenario of the spec

    An 80x80 grid of cells of size 20 with one wall at row 20, column 25;
    the ray starts at (400, 400) and runs along the x axis. *)
Module Scenario.

Definition map : Map := wall_at 20 25 (empty_map 80 80).
Definition start_pos : Vector2 := vec 400 400.
Definition tile_size : float := fl 20.
Definition max_distance : float := fl 1000.

(** The state on entry to the loop. *)
Definition entry : RayState :=
  mkRayState 20 20 (mkVector2 (fl 20) infinity) false F32.zero.

End Scenario.

(** *** A wall just beyond the budget

    Cells of size 20, the origin at (10, 10), a wall in the next cell to
    the right and a budget of 5. *)
Module Overshoot.

Definition map : Map := wall_at 0 1 (empty_map 1 2).
Definition start_pos : Vector2 := vec 10 10.
Definition tile_size : float := fl 20.
Definition max_distance : float := fl 5.

Definition entry : RayState :=
  mkRayState 0 0 (mkVector2 (fl 10) infinity) false F32.zero.

Definition hit : RayState :=
  mkRayState 1 0 (mkVector2 (fl 30) infinity) true (fl 10).

End Overshoot.

(** *** An origin left of the grid

    Cells of size 20 and a ray along the x axis from (-10, 10), half a
    cell left of column 0, and from (-30, 10). *)
Module Outside.

Definition near_pos : Vector2 := vec (-10) 10.
Definition far_pos : Vector2 := vec (-30) 10.
Definition tile_size : float := fl 20.
Definition max_distance : float := fl 1000.

(** A wall in column 0, and a wall in column 2. *)
Definition wall_first : Map := wall_at 0 0 (empty_map 1 3).
Definition wall_third : Map := wall_at 0 2 (empty_map 1 3).

End Outside.

(** *** A ray through a corner

    From the middle of cell (0, 0) along the diagonal, with a wall in the
    cell below (row 1, column 0). *)
Module Corner.

Definition map : Map := wall_at 1 0 (empty_map 2 2).
Definition start_pos : Vector2 := vec 10 10.
Definition direction : Vector2 := Vector2Normalize (vec 1 1).
Definition tile_size : float := fl 20.
Definition max_distance : float := fl 1000.

End Corner.

(** *** A diagonal ray over unit cells *)
Module Diagonal.

Definition map : Map := [[0]].
Definition start_pos : Vector2 := vec 0 0.
Definition direction : Vector2 := Vector2Normalize (vec 1 1).
Definition tile_size : float := fl 1.

(** [maxDistance / (cellSize * min(stepLen.x, stepLen.y))]; the two
    step lengths are equal here. *)
Definition spec_bound (max_distance : float) : float :=
  F32.div max_distance (F32.mul tile_size (vx (step_dir_of direction))).

End Diagonal.

(** *** A thousand small cells

    Cells of size 0.1f, the origin at (0.05f, 0.05f) and one wall, in
    column 1000. *)
Module Drift.

Definition tile_size : float := F32.div (fl 1) (fl 10).
Definition start_pos : Vector2 :=
  mkVector2 (F32.div (fl 1) (fl 20)) (F32.div (fl 1) (fl 20)).
Definition map : Map := wall_at 0 1000 (empty_map 1 1001).
Definition max_distance : float := fl 1000.


End Drift.

(** ** The walk of the ray

    What an iteration does before it tests the cell it has entered: the
    advance along the nearer axis.  It is the body of the loop on a grid
    without cells, where no cell is in bounds and none is read. *)
Definition advance (tile_size : float) (step_dir : Vector2) (step_x step_y : Z)
  (st : RayState) : outcome RayState :=
  loop_body F32.ltb [] 0 0 tile_size step_dir step_x step_y st.

(** The state after [k] advances. *)
Fixpoint walk (tile_size : float) (step_dir : Vector2) (step_x step_y : Z)
  (k : nat) (st : RayState) : outcome RayState :=
  match k with
  | O => Returns st
  | S k' => st' <- advance tile_size step_dir step_x step_y st ;;
            walk tile_size step_dir step_x step_y k' st'
  end.

(** The cell of [st] is inside the bounds and flagged. *)
Definition entered_wall (map : Map) (map_rows map_cols : Z) (st : RayState) : bool :=
  (cur_map_x st >=? 0) && (cur_map_x st <? map_cols)
  && (cur_map_y st >=? 0) && (cur_map_y st <? map_rows)
  && occupied map (cur_map_y st) (cur_map_x st).

(** The next [n] advances are made within the budget and enter no wall. *)
Fixpoint free_run (map : Map) (map_rows map_cols : Z) (tile_size max_distance : float)
  (step_dir : Vector2) (step_x step_y : Z) (n : nat) (st : RayState) : bool :=
  match n with
  | O => true
  | S n' =>
      F32.ltb (distance st) max_distance
      && match advance tile_size step_dir step_x step_y st with
         | Returns st' =>
             negb (entered_wall map map_rows map_cols st')
             && free_run map map_rows map_cols tile_size max_distance step_dir
                  step_x step_y n' st'
         | _ => false
         end
  end.

(** The walk of a call, from its entry state. *)
Definition ray_walk (start_pos direction : Vector2) (tile_size : float) (k : nat)
  : outcome RayState :=
  st0 <- initial_state start_pos direction tile_size ;;
  walk tile_size (step_dir_of direction) (step_of (vx direction))
    (step_of (vy direction)) k st0.

Definition ray_free_run (start_pos direction : Vector2) (map : Map) (map_rows map_cols : Z)
  (tile_size max_distance : float) (n : nat) : bool :=
  match initial_state start_pos direction tile_size with
  | Returns st0 =>
      free_run map map_rows map_cols tile_size max_distance (step_dir_of direction)
        (step_of (vx direction)) (step_of (vy direction)) n st0
  | _ => false
  end.

(** Two grids flag the same cells: the cells that hold 1 are the same,
    whatever the other cells hold. *)
Definition same_walls (map1 map2 : Map) (map_rows map_cols : Z) : bool :=
  forallb (fun row =>
             forallb (fun col => Bool.eqb (occupied map1 row col) (occupied map2 row col))
               (indices map_cols))
    (indices map_rows).

(** ** main

    The part of [main] that is not drawing: the grid, the constants and
    what one turn of the frame loop does to the grid and to the origin
    before it casts the ray.  The keys and the mouse are inputs. *)
Module Main.

Definition screen_width : Z := 800.
Definition screen_height : Z := 800.
Definition map_rows : Z := 80.
Definition map_cols : Z := 80.
Definition tile_size : float := F32.of_int 20.
Definition origin_spd : float := F32.of_int 8.
Definition max_ray_len : float := F32.of_int 1000.

(** The grid [main] allocates: [calloc] fills the rows with zeros. *)
Definition initial_map : Map :=
  repeat (repeat 0 (Z.to_nat map_cols)) (Z.to_nat map_rows).

(** [map[row][col] = flag]; an access outside the allocated cells, a
    write as well as a read, comes to [BadRead]. *)
Definition write (map : Map) (row col flag : Z) : outcome Map :=
  match read map row col with
  | Some _ => Returns (set_cell row col flag map)
  | None => BadRead
  end.

(** What raylib reports in one frame. *)
Record Input : Type := mkInput {
  key_w : bool;
  key_a : bool;
  key_s : bool;
  key_d : bool;
  key_c : bool;
  mouse : Vector2;
  left_button : bool;
  right_button : bool
}.

(** The four [IsKeyDown] tests. *)
Definition move_origin (inp : Input) (origin_pos : Vector2) : Vector2 :=
  let p1 := if key_w inp then mkVector2 (vx origin_pos) (F32.sub (vy origin_pos) origin_spd)
            else origin_pos in
  let p2 := if key_a inp then mkVector2 (F32.sub (vx p1) origin_spd) (vy p1) else p1 in
  let p3 := if key_s inp then mkVector2 (vx p2) (F32.add (vy p2) origin_spd) else p2 in
  if key_d inp then mkVector2 (F32.add (vx p3) origin_spd) (vy p3) else p3.

(** The tile under the mouse is painted or erased. *)
Definition paint (map : Map) (target_pos : Vector2) (left right : bool) : outcome Map :=
  tile_x <- float_to_int (F32.div (vx target_pos) tile_size) ;;
  tile_y <- float_to_int (F32.div (vy target_pos) tile_size) ;;
  if (tile_x >=? 0) && (tile_x <? map_cols) && (tile_y >=? 0) && (tile_y <? map_rows) then
    if left then write map tile_y tile_x 1
    else if right then write map tile_y tile_x 0
    else Returns map
  else Returns map.

(** The inner and the outer loop of the clearing, with [n] rounds left. *)
Fixpoint clear_cells (map : Map) (i : Z) (n : nat) (j : Z) : outcome Map :=
  match n with
  | O => Returns map
  | S n' => map' <- write map i j 0 ;; clear_cells map' i n' (j + 1)
  end.

Fixpoint clear_rows (map : Map) (n : nat) (i : Z) : outcome Map :=
  match n with
  | O => Returns map
  | S n' => map' <- clear_cells map i (Z.to_nat map_cols) 0 ;; clear_rows map' n' (i + 1)
  end.

Definition clear (map : Map) : outcome Map := clear_rows map (Z.to_nat map_rows) 0.

(** What a turn of the frame loop keeps and what it computes. *)
Record World : Type := mkWorld {
  grid : Map;
  origin_pos : Vector2;
  intersection_distance : float;
  ray_pos : Vector2
}.

(** What a frame does to the grid: the tile under the mouse, then the
    clearing when [C] was pressed. *)
Definition update_grid (inp : Input) (map : Map) : outcome Map :=
  painted <- paint map (mouse inp) (left_button inp) (right_button inp) ;;
  if key_c inp then clear painted else Returns painted.

(** One turn of the frame loop, up to the drawing. *)
Definition frame (fuel : nat) (inp : Input) (w : World) : outcome World :=
  let origin := move_origin inp (origin_pos w) in
  let target_pos := mouse inp in
  map <- update_grid inp (grid w) ;;
  let ray_dir := Vector2Normalize (Vector2Subtract target_pos origin) in
  d <- castRayDDA fuel origin ray_dir map map_rows map_cols tile_size max_ray_len ;;
  Returns (mkWorld map origin d (Vector2Add origin (Vector2Scale ray_dir d))).

(** A call of [DrawRectangle]: position, width and height. *)
Record Rectangle : Type := mkRectangle {
  rect_x : Z;
  rect_y : Z;
  rect_width : Z;
  rect_height : Z
}.

(** The loops that draw the tiles, with [n] rounds left. *)
Fixpoint draw_cells (map : Map) (i : Z) (n : nat) (j : Z) : outcome (list Rectangle) :=
  match n with
  | O => Returns []
  | S n' =>
      cell <- match read map i j with Some c => Returns c | None => BadRead end ;;
      first <-
        (if cell =? 1 then
           x <- float_to_int (F32.mul (F32.of_int j) tile_size) ;;
           y <- float_to_int (F32.mul (F32.of_int i) tile_size) ;;
           w <- float_to_int tile_size ;;
           h <- float_to_int tile_size ;;
           Returns [mkRectangle x y w h]
         else Returns []) ;;
      rest <- draw_cells map i n' (j + 1) ;;
      Returns (first ++ rest)
  end.

Fixpoint draw_rows (map : Map) (n : nat) (i : Z) : outcome (list Rectangle) :=
  match n with
  | O => Returns []
  | S n' =>
      first <- draw_cells map i (Z.to_nat map_cols) 0 ;;
      rest <- draw_rows map n' (i + 1) ;;
      Returns (first ++ rest)
  end.

Definition draw_tiles (map : Map) : outcome (list Rectangle) :=
  draw_rows map (Z.to_nat map_rows) 0.

(** The rectangle of the tile at row [i], column [j]. *)
Definition tile_rectangle (i j : Z) : Rectangle := mkRectangle (20 * j) (20 * i) 20 20.

(** The cells of the grid that hold a wall, row by row. *)
Definition walls (map : Map) : list (Z * Z) :=
  flat_map (fun i => List.map (fun j => (i, j)) (walls_in_row map map_cols i))
    (indices map_rows).

End Main.

(** *** Two frames

    The first frame of [main], with a click on a tile. *)
Module Frame.

(** The mouse over the tile of row 20, column 20, the left button down. *)
Definition click : Main.Input :=
  Main.mkInput false false false true false (vec 405 410) true false.

(** The same with [C] pressed. *)
Definition click_and_clear : Main.Input :=
  Main.mkInput false false false true true (vec 405 410) true false.

(** What [main] enters the loop with: the origin in the middle of the
    screen, the end of the ray at (-100, -100) and no distance yet. *)
Definition start : Main.World :=
  Main.mkWorld Main.initial_map (vec 400 400) F32.zero (vec (-100) (-100)).

End Frame.
(** * Facts *)

(** ** Rounding of values that need none *)

Section Exact.

Lemma iter_pos_nat {A : Type} (f : A -> A) (p : positive) (x : A) :
  iter_pos f p x = Nat.iter (Pos.to_nat p) f x.
Proof.
  revert x; induction p as [p IH|p IH|]; intro x; cbn [iter_pos].
  - rewrite !IH, Pos2Nat.inj_xI, Nat.iter_succ_r.
    replace (2 * Pos.to_nat p)%nat with (Pos.to_nat p + Pos.to_nat p)%nat by lia.
    now rewrite Nat.iter_add.
  - rewrite !IH, Pos2Nat.inj_xO.
    replace (2 * Pos.to_nat p)%nat with (Pos.to_nat p + Pos.to_nat p)%nat by lia.
    now rewrite Nat.iter_add.
  - reflexivity.
Qed.

Lemma Pos_iter_shl (m d : positive) : Pos.iter xO m d = F32.shl (Pos.to_nat d) m.
Proof.
  induction d as [|d IH] using Pos.peano_ind.
  - reflexivity.
  - rewrite Pos.iter_succ, IH, Pos2Nat.inj_succ. reflexivity.
Qed.

Lemma digits_shl (k : nat) (m : positive) :
  Zpos (digits2_pos (F32.shl k m)) = Zpos (digits2_pos m) + Z.of_nat k.
Proof.
  induction k as [|k IH].
  - cbn. lia.
  - change (F32.shl (S k) m) with (xO (F32.shl k m)). cbn [digits2_pos].
    rewrite Pos2Z.inj_succ, IH. lia.
Qed.

Lemma shr_shl (n k : nat) (m : positive) :
  Nat.iter n shr_1 (Build_shr_record (Zpos (F32.shl (n + k) m)) false false)
  = Build_shr_record (Zpos (F32.shl k m)) false false.
Proof.
  induction n as [|n IH].
  - reflexivity.
  - rewrite Nat.iter_succ_r. exact IH.
Qed.

Lemma shl_add (k : nat) (a b : positive) :
  (F32.shl k a + F32.shl k b = F32.shl k (a + b))%positive.
Proof.
  induction k as [|k IH]; [reflexivity|].
  change (F32.shl (S k) a) with (xO (F32.shl k a)).
  change (F32.shl (S k) b) with (xO (F32.shl k b)).
  change (F32.shl (S k) (a + b)) with (xO (F32.shl k (a + b))).
  cbn. now rewrite IH.
Qed.

Lemma shl_shl (j k : nat) (m : positive) : F32.shl j (F32.shl k m) = F32.shl (j + k) m.
Proof. unfold F32.shl. now rewrite Nat.iter_add. Qed.

Lemma mul_shl (k : nat) (a b : positive) :
  (a * F32.shl k b = F32.shl k (a * b))%positive.
Proof.
  induction k as [|k IH]; [reflexivity|].
  change (F32.shl (S k) b) with (xO (F32.shl k b)).
  change (F32.shl (S k) (a * b)%positive) with (xO (F32.shl k (a * b))).
  now rewrite Pos.mul_xO_r, IH.
Qed.

Lemma fexp_eq (x : Z) : fexp F32.prec F32.emax x = Z.max (x - 24) (-149).
Proof. reflexivity. Qed.

(** A mantissa with [n] zero bits to drop rounds to itself. *)
Lemma round_exact (s : bool) (m : positive) (n k : nat) (ex : Z) :
  fexp F32.prec F32.emax (Zpos (digits2_pos m) + Z.of_nat (n + k) + ex) - ex = Z.of_nat n ->
  binary_round_aux F32.prec F32.emax s (Zpos (F32.shl (n + k) m)) ex loc_Exact
  = if ex + Z.of_nat n <=? F32.emax - F32.prec
    then S754_finite s (F32.shl k m) (ex + Z.of_nat n)
    else S754_infinity s.
Proof.
  intro Hn.
  unfold binary_round_aux, shr_fexp.
  cbn [Zdigits2 shr_record_of_loc].
  rewrite digits_shl, Hn.
  assert (H1 : shr (Build_shr_record (Zpos (F32.shl (n + k) m)) false false) ex (Z.of_nat n)
               = (Build_shr_record (Zpos (F32.shl k m)) false false, ex + Z.of_nat n)).
  { destruct n as [|n].
    - cbn. now rewrite Z.add_0_r.
    - unfold shr. cbn [Z.of_nat]. rewrite iter_pos_nat, SuccNat2Pos.id_succ.
      now rewrite shr_shl. }
  rewrite H1. cbn [shr_m loc_of_shr_record round_nearest_even Zdigits2 shr_record_of_loc].
  rewrite digits_shl.
  replace (fexp F32.prec F32.emax (Zpos (digits2_pos m) + Z.of_nat k + (ex + Z.of_nat n))
           - (ex + Z.of_nat n)) with 0.
  - reflexivity.
  - rewrite Nat2Z.inj_add in Hn.
    replace (Zpos (digits2_pos m) + Z.of_nat k + (ex + Z.of_nat n))
      with (Zpos (digits2_pos m) + (Z.of_nat n + Z.of_nat k) + ex) by lia.
    lia.
Qed.

Lemma shl_align_shl (m : positive) (e : Z) (k : nat) :
  shl_align m e (e - Z.of_nat k) = (F32.shl k m, e - Z.of_nat k).
Proof.
  unfold shl_align.
  replace (e - Z.of_nat k - e) with (- Z.of_nat k) by lia.
  destruct k as [|k].
  - cbn. now rewrite Z.sub_0_r.
  - cbn [Z.of_nat Z.opp]. now rewrite Pos_iter_shl, SuccNat2Pos.id_succ.
Qed.

Lemma binary_round_normal (s : bool) (p : positive) (k : nat) (e : Z) :
  Zpos (digits2_pos p) + Z.of_nat k = 24 ->
  -149 <= e - Z.of_nat k -> e - Z.of_nat k <= 104 ->
  binary_round F32.prec F32.emax s p e = S754_finite s (F32.shl k p) (e - Z.of_nat k).
Proof.
  intros Hd Hlo Hhi. unfold binary_round.
  replace (fexp F32.prec F32.emax (Zpos (digits2_pos p) + e)) with (e - Z.of_nat k)
    by (rewrite fexp_eq; lia).
  rewrite shl_align_shl.
  rewrite (round_exact s p 0 k) by (cbn [Nat.add]; rewrite fexp_eq; lia).
  cbn [Z.of_nat]. rewrite Z.add_0_r.
  replace (e - Z.of_nat k <=? F32.emax - F32.prec) with true; [reflexivity|].
  symmetry. apply Z.leb_le. exact Hhi.
Qed.

Lemma binary_round_shl (s : bool) (m : positive) (n k : nat) (e : Z) :
  Zpos (digits2_pos m) + Z.of_nat k = 24 ->
  -149 <= e + Z.of_nat n -> e + Z.of_nat n <= 104 ->
  binary_round F32.prec F32.emax s (F32.shl (n + k) m) e
  = S754_finite s (F32.shl k m) (e + Z.of_nat n).
Proof.
  intros Hd Hlo Hhi. unfold binary_round.
  rewrite digits_shl, Nat2Z.inj_add.
  replace (fexp F32.prec F32.emax (Zpos (digits2_pos m) + (Z.of_nat n + Z.of_nat k) + e))
    with (e + Z.of_nat n) by (rewrite fexp_eq; lia).
  assert (Ha : shl_align (F32.shl (n + k) m) e (e + Z.of_nat n) = (F32.shl (n + k) m, e)).
  { unfold shl_align. replace (e + Z.of_nat n - e) with (Z.of_nat n) by lia.
    now destruct n. }
  rewrite Ha.
  rewrite (round_exact s m n k) by (rewrite Nat2Z.inj_add, fexp_eq; lia).
  replace (e + Z.of_nat n <=? F32.emax - F32.prec) with true; [reflexivity|].
  symmetry. apply Z.leb_le. exact Hhi.
Qed.

(** The binary32 value of a positive integer below [2^24]. *)
Lemma of_int_pos (p : positive) (k : nat) :
  Zpos (digits2_pos p) + Z.of_nat k = 24 ->
  F32.of_int (Zpos p) = S754_finite false (F32.shl k p) (- Z.of_nat k).
Proof.
  intro Hd. unfold F32.of_int, binary_normalize.
  rewrite (binary_round_normal false p k 0 Hd) by lia. reflexivity.
Qed.

(** Adding [1.0f] to an integer is exact below [2^24]. *)
Lemma add_one (p : positive) (k : nat) :
  Zpos (digits2_pos (p + 1)) + Z.of_nat k = 24 ->
  Zpos (digits2_pos p) <= 24 ->
  F32.add (F32.of_int (Zpos p)) one = F32.of_int (Zpos (p + 1)).
Proof.
  intros Hd Hp.
  pose (j := Z.to_nat (24 - Zpos (digits2_pos p))).
  rewrite (of_int_pos p j) by (unfold j; lia).
  rewrite (of_int_pos (p + 1) k Hd).
  change one with (S754_finite false (F32.shl 23 1) (-23)).
  unfold F32.add, SFadd.
  assert (Hmin : Z.min (- Z.of_nat j) (-23) = -23) by (unfold j; lia).
  rewrite Hmin. cbn [cond_Zopp].
  replace (-23) with (- Z.of_nat j - Z.of_nat (23 - j)) at 1 by (unfold j; lia).
  rewrite shl_align_shl.
  replace (-23) with (-23 - Z.of_nat 0) at 2 by reflexivity.
  rewrite shl_align_shl. cbn [fst].
  rewrite shl_shl. replace (23 - j + j)%nat with 23%nat by (unfold j; lia).
  change (F32.shl 0 (F32.shl 23 1)) with (F32.shl 23 1).
  change (Zpos (F32.shl 23 p) + Zpos (F32.shl 23 1))
    with (Zpos (F32.shl 23 p + F32.shl 23 1)).
  rewrite shl_add. unfold binary_normalize.
  replace 23%nat with (23 - k + k)%nat at 1 by lia.
  rewrite (binary_round_shl false (p + 1) (23 - k) k (-23) Hd) by lia.
  f_equal. lia.
Qed.

End Exact.

Lemma digits_size (p : positive) : digits2_pos p = Pos.size p.
Proof. induction p as [p IH|p IH|]; cbn; now rewrite ?IH. Qed.

Lemma digits_le_24 (p : positive) : Zpos p < 2 ^ 24 -> Zpos (digits2_pos p) <= 24.
Proof.
  intro Hp. rewrite digits_size.
  destruct (Z_le_gt_dec (Zpos (Pos.size p)) 24) as [Hle|Hgt]; [exact Hle|exfalso].
  pose proof (Pos.size_le p) as Hs.
  assert (H25 : 2 ^ 25 <= 2 ^ Zpos (Pos.size p)) by (apply Z.pow_le_mono_r; lia).
  assert (Hz : 2 ^ Zpos (Pos.size p) <= Zpos (p~0)).
  { rewrite <- Pos2Z.inj_pow. exact Hs. }
  change (2 ^ 25) with 33554432 in H25. change (2 ^ 24) with 16777216 in Hp. lia.
Qed.

Lemma add_one_int (j : Z) :
  1 <= j -> j + 1 <= 2 ^ 24 -> F32.add (F32.of_int j) one = F32.of_int (j + 1).
Proof.
  intros H1 H2. destruct (Z.eq_dec (j + 1) (2 ^ 24)) as [He|Hne].
  - assert (j = 16777215) as -> by (change (2 ^ 24) with 16777216 in He; lia).
    vm_compute. reflexivity.
  - destruct j as [|p|p]; try lia.
    change (Zpos p + 1) with (Zpos (p + 1)).
    assert (Hq : Zpos (digits2_pos (p + 1)) <= 24) by (apply digits_le_24; lia).
    apply (add_one p (Z.to_nat (24 - Zpos (digits2_pos (p + 1))))).
    + lia.
    + apply digits_le_24. lia.
Qed.

Lemma of_int_lt (j : Z) (m : positive) (e : Z) :
  0 <= j -> j < 2 ^ 24 -> 0 < e ->
  F32.ltb (F32.of_int j) (S754_finite false m e) = true.
Proof.
  intros H0 H1 He. destruct j as [|p|p]; try lia.
  - reflexivity.
  - pose proof (digits_le_24 p H1) as Hd.
    rewrite (of_int_pos p (Z.to_nat (24 - Zpos (digits2_pos p)))) by lia.
    unfold F32.ltb, SFltb, SFcompare.
    replace (- Z.of_nat (Z.to_nat (24 - Zpos (digits2_pos p))) ?= e) with Lt; [reflexivity|].
    symmetry. apply Z.compare_lt_iff. lia.
Qed.

Lemma of_int_lt_infinity (j : Z) :
  0 <= j -> j < 2 ^ 24 -> F32.ltb (F32.of_int j) (S754_infinity false) = true.
Proof.
  intros H0 H1. destruct j as [|p|p]; try lia.
  - reflexivity.
  - pose proof (digits_le_24 p H1) as Hd.
    now rewrite (of_int_pos p (Z.to_nat (24 - Zpos (digits2_pos p)))) by lia.
Qed.

Lemma in_int_iff (n : Z) : in_int n = true <-> INT_MIN <= n <= INT_MAX.
Proof. unfold in_int. rewrite andb_true_iff, !Z.leb_le. tauto. Qed.

Lemma int_add_ok (a b : Z) : INT_MIN <= a + b <= INT_MAX -> int_add a b = Returns (a + b).
Proof. intro H. unfold int_add. now rewrite (proj2 (in_int_iff _) H). Qed.

(** ** The loop *)

Section TraversalFacts.

Variable nearer : float -> float -> bool.
Variable map : Map.
Variables map_rows map_cols : Z.
Variables tile_size max_distance : float.
Variable step_dir : Vector2.
Variables step_x step_y : Z.

Let body := loop_body nearer map map_rows map_cols tile_size step_dir step_x step_y.
Let run := traverse nearer map map_rows map_cols tile_size max_distance step_dir step_x step_y.

Lemma traverse_stopped (fuel : nat) (st : RayState) :
  running max_distance st = false -> run fuel st = Returns st.
Proof. intro H. destruct fuel; cbn; now rewrite H. Qed.

Lemma traverse_step (fuel : nat) (st : RayState) :
  running max_distance st = true ->
  run (S fuel) st = (st' <- body st ;; run fuel st').
Proof. intro H. cbn. now rewrite H. Qed.

Lemma traverse_timeout (st : RayState) :
  running max_distance st = true -> run 0%nat st = Timeout.
Proof. intro H. cbn. now rewrite H. Qed.

(** More fuel does not change a run that came to an end. *)
Lemma traverse_more (fuel extra : nat) (st : RayState) :
  run fuel st <> Timeout -> run (fuel + extra) st = run fuel st.
Proof.
  revert st. induction fuel as [|fuel IH]; intros st H.
  - destruct (running max_distance st) eqn:Hr.
    + now rewrite traverse_timeout in H.
    + now rewrite !traverse_stopped.
  - destruct (running max_distance st) eqn:Hr.
    + cbn [Nat.add]. rewrite !traverse_step in * by exact Hr.
      destruct (body st) as [st'| | |]; cbn [bind] in *; try reflexivity.
      now apply IH.
    + now rewrite !traverse_stopped.
Qed.

End TraversalFacts.

(** ** The long ray: the distance stops growing at [2^24] *)

Section LongRayFacts.

Import LongRay.

Lemma climbing_runs (j : Z) :
  0 <= j -> j < 2 ^ 24 -> running max_distance (climbing j) = true.
Proof.
  intros H0 H1. unfold running, climbing, max_distance, fl. cbn [has_hit_wall distance negb andb].
  change (F32.of_int 33554432) with (S754_finite false 8388608 2).
  apply of_int_lt; lia.
Qed.

Lemma climbing_body (j : Z) :
  0 <= j -> j + 1 < 2 ^ 24 ->
  loop_body F32.ltb map 1 1 tile_size (step_dir_of direction)
    (step_of (vx direction)) (step_of (vy direction)) (climbing j)
  = Returns (climbing (j + 1)).
Proof.
  intros H0 H1. change (2 ^ 24) with 16777216 in H1.
  unfold loop_body, climbing. cbn [ray_len vx vy cur_map_x cur_map_y has_hit_wall].
  unfold fl, infinity. rewrite of_int_lt_infinity by (change (2 ^ 24) with 16777216; lia).
  change (step_of (vx direction)) with 1.
  rewrite int_add_ok by (unfold INT_MIN, INT_MAX; lia).
  cbn [bind].
  replace (j + 1 <? 1) with false by (symmetry; apply Z.ltb_ge; lia).
  rewrite andb_false_r. cbn [andb].
  change (F32.mul (vx (step_dir_of direction)) tile_size) with one.
  rewrite add_one_int by (change (2 ^ 24) with 16777216; lia).
  reflexivity.
Qed.

Lemma stalled_body (c : Z) (st : RayState) :
  1 <= c ->
  loop_body F32.ltb map 1 1 tile_size (step_dir_of direction)
    (step_of (vx direction)) (step_of (vy direction)) (stalled c) = Returns st ->
  st = stalled (c + 1).
Proof.
  intros Hc. unfold loop_body, stalled. cbn [ray_len vx vy cur_map_x cur_map_y has_hit_wall].
  change (F32.ltb (fl 16777216) infinity) with true. cbn iota.
  change (step_of (vx direction)) with 1.
  unfold int_add. destruct (in_int (c + 1)); cbn [bind]; [|discriminate].
  replace (c + 1 <? 1) with false by (symmetry; apply Z.ltb_ge; lia).
  rewrite andb_false_r. cbn [andb].
  change (F32.add (fl 16777216) (F32.mul (vx (step_dir_of direction)) tile_size))
    with (fl 16777216).
  intro H. now injection H as <-.
Qed.

Lemma stalled_never_returns (fuel : nat) (c : Z) (st : RayState) :
  1 <= c -> run fuel (stalled c) <> Returns st.
Proof.
  revert c. induction fuel as [|fuel IH]; intros c Hc.
  - unfold run. now rewrite traverse_timeout.
  - unfold run. rewrite traverse_step by reflexivity.
    destruct (loop_body _ _ _ _ _ _ _ _ (stalled c)) as [st'| | |] eqn:Hb;
      cbn [bind]; try discriminate.
    apply stalled_body in Hb; [subst st'|exact Hc]. apply IH. lia.
Qed.

Lemma climbing_never_returns (fuel : nat) (j : Z) (st : RayState) :
  0 <= j -> j < 2 ^ 24 -> run fuel (climbing j) <> Returns st.
Proof.
  revert j. induction fuel as [|fuel IH]; intros j H0 H1.
  - unfold run. now rewrite traverse_timeout by now apply climbing_runs.
  - unfold run. rewrite traverse_step by now apply climbing_runs.
    destruct (Z_lt_le_dec (j + 1) (2 ^ 24)) as [Hlt|Hge].
    + rewrite climbing_body by assumption. cbn [bind]. apply IH; lia.
    + assert (j = 16777215) as -> by (change (2 ^ 24) with 16777216 in *; lia).
      change (loop_body F32.ltb map 1 1 tile_size (step_dir_of direction)
                (step_of (vx direction)) (step_of (vy direction)) (climbing 16777215))
        with (Returns (stalled 16777216)).
      cbn [bind]. apply stalled_never_returns. lia.
Qed.

(** However much fuel it gets, the call does not return. *)
Lemma long_ray_never_returns (fuel : nat) (result : float) :
  castRayDDA fuel start_pos direction map 1 1 tile_size max_distance
  <> Returns result.
Proof.
  unfold castRayDDA, cast_ray.
  change (initial_state start_pos direction tile_size) with (Returns (climbing 0)).
  cbn [bind].
  destruct (traverse _ _ _ _ _ _ _ _ _ _ (climbing 0)) as [st| | |] eqn:Ht;
    cbn [bind]; try discriminate.
  exfalso. apply (climbing_never_returns fuel 0 st); [lia|reflexivity|exact Ht].
Qed.

End LongRayFacts.

(** ** Grids *)

Lemma read_in_bounds (map : Map) (map_rows map_cols row col : Z) :
  well_formed map map_rows map_cols = true ->
  0 <= row < map_rows -> 0 <= col < map_cols ->
  exists cell, read map row col = Some cell.
Proof.
  unfold well_formed. rewrite andb_true_iff, Z.eqb_eq, forallb_forall.
  intros [Hrows Hcols] Hr Hc. unfold read.
  replace (row <? 0) with false by (symmetry; apply Z.ltb_ge; lia).
  replace (col <? 0) with false by (symmetry; apply Z.ltb_ge; lia).
  cbn [orb].
  destruct (nth_error map (Z.to_nat row)) as [cells|] eqn:Hn.
  - apply nth_error_In in Hn. apply Hcols in Hn. apply Z.eqb_eq in Hn.
    destruct (nth_error cells (Z.to_nat col)) as [cell|] eqn:Hm.
    + now exists cell.
    + apply nth_error_None in Hm. lia.
  - apply nth_error_None in Hn. lia.
Qed.

Lemma read_unoccupied (map : Map) (row col cell : Z) :
  unoccupied map = true -> read map row col = Some cell -> (cell =? 1) = false.
Proof.
  unfold unoccupied, read. rewrite forallb_forall. intros Hall.
  destruct ((row <? 0) || (col <? 0)); [discriminate|].
  destruct (nth_error map (Z.to_nat row)) as [cells|] eqn:Hn; [|discriminate].
  intro Hm. apply nth_error_In in Hn, Hm.
  specialize (Hall cells Hn). rewrite forallb_forall in Hall.
  specialize (Hall cell Hm). now apply negb_true_iff in Hall.
Qed.

(** ** The loop ends once both axes have used up the budget *)

Section Budget.

Variable nearer : float -> float -> bool.
Variable map : Map.
Variables map_rows map_cols : Z.
Variables tile_size max_distance : float.
Variable step_dir : Vector2.
Variables step_x step_y : Z.

Hypothesis grid : well_formed map map_rows map_cols = true.
Hypothesis unit_x : step_x = -1 \/ step_x = 1.
Hypothesis unit_y : step_y = -1 \/ step_y = 1.

Variables x0 y0 : Z.
Variables len_x len_y : float.
Variables nx ny : nat.

Local Abbreviation across k := (boundary (F32.mul (vx step_dir) tile_size) len_x k).
Local Abbreviation along k := (boundary (F32.mul (vy step_dir) tile_size) len_y k).

Hypothesis spent_x : F32.ltb (across nx) max_distance = false.
Hypothesis spent_y : F32.ltb (along ny) max_distance = false.
Hypothesis room_x : room x0 (S nx) = true.
Hypothesis room_y : room y0 (S ny) = true.

Let body := loop_body nearer map map_rows map_cols tile_size step_dir step_x step_y.
Let run := traverse nearer map map_rows map_cols tile_size max_distance step_dir step_x step_y.

(** The state after [kx] advances of the x axis and [ky] of the y axis. *)
Local Abbreviation at_step kx ky hit d :=
  (mkRayState (x0 + step_x * Z.of_nat kx) (y0 + step_y * Z.of_nat ky)
     (mkVector2 (across kx) (along ky)) hit d).

Lemma checked (x y : Z) (len : Vector2) (hit : bool) (d : float) :
  exists hit',
    (if (x >=? 0) && (x <? map_cols) && (y >=? 0) && (y <? map_rows) then
       match read map y x with
       | Some cell => Returns (mkRayState x y len (if cell =? 1 then true else hit) d)
       | None => BadRead
       end
     else Returns (mkRayState x y len hit d))
    = Returns (mkRayState x y len hit' d).
Proof.
  destruct ((x >=? 0) && (x <? map_cols) && (y >=? 0) && (y <? map_rows)) eqn:Hb.
  - rewrite !andb_true_iff, !Z.geb_le, !Z.ltb_lt in Hb.
    destruct (read_in_bounds map map_rows map_cols y x grid) as [cell ->]; [lia|lia|].
    now eexists.
  - now eexists.
Qed.

Lemma body_across (kx ky : nat) (hit : bool) (d : float) :
  nearer (across kx) (along ky) = true -> (kx <= nx)%nat ->
  exists hit', body (at_step kx ky hit d) = Returns (at_step (S kx) ky hit' (across kx)).
Proof.
  intros Hn Hk. unfold body, loop_body.
  cbn [ray_len vx vy cur_map_x cur_map_y has_hit_wall]. rewrite Hn.
  unfold room in room_x. rewrite andb_true_iff, !in_int_iff in room_x.
  rewrite int_add_ok by (destruct unit_x as [-> | ->]; lia).
  cbn [bind].
  replace (x0 + step_x * Z.of_nat kx + step_x) with (x0 + step_x * Z.of_nat (S kx)) by lia.
  apply checked.
Qed.

Lemma body_along (kx ky : nat) (hit : bool) (d : float) :
  nearer (across kx) (along ky) = false -> (ky <= ny)%nat ->
  exists hit', body (at_step kx ky hit d) = Returns (at_step kx (S ky) hit' (along ky)).
Proof.
  intros Hn Hk. unfold body, loop_body.
  cbn [ray_len vx vy cur_map_x cur_map_y has_hit_wall]. rewrite Hn.
  unfold room in room_y. rewrite andb_true_iff, !in_int_iff in room_y.
  rewrite int_add_ok by (destruct unit_y as [-> | ->]; lia).
  cbn [bind].
  replace (y0 + step_y * Z.of_nat ky + step_y) with (y0 + step_y * Z.of_nat (S ky)) by lia.
  apply checked.
Qed.

Lemma traverse_within (fuel kx ky : nat) (hit : bool) (d : float) :
  (kx <= nx)%nat -> (ky <= ny)%nat -> (nx - kx + (ny - ky) < fuel)%nat ->
  exists st, run fuel (at_step kx ky hit d) = Returns st.
Proof.
  revert kx ky hit d. induction fuel as [|fuel IH]; intros kx ky hit d Hx Hy Hf; [lia|].
  destruct (running max_distance (at_step kx ky hit d)) eqn:Hr.
  - unfold run. rewrite traverse_step by exact Hr.
    destruct (nearer (across kx) (along ky)) eqn:Hn.
    + destruct (body_across kx ky hit d Hn Hx) as [hit' Hb].
      fold body. rewrite Hb. cbn [bind].
      destruct (Nat.eq_dec kx nx) as [->|Hne].
      * eexists. apply traverse_stopped.
        unfold running. cbn [has_hit_wall distance].
        rewrite spent_x. apply andb_false_r.
      * apply IH; lia.
    + destruct (body_along kx ky hit d Hn Hy) as [hit' Hb].
      fold body. rewrite Hb. cbn [bind].
      destruct (Nat.eq_dec ky ny) as [->|Hne].
      * eexists. apply traverse_stopped.
        unfold running. cbn [has_hit_wall distance].
        rewrite spent_y. apply andb_false_r.
      * apply IH; lia.
  - eexists. apply traverse_stopped. exact Hr.
Qed.

End Budget.

(** On a grid without walls no run sets [has_hit_wall]. *)
Section OpenGrid.

Variable nearer : float -> float -> bool.
Variable map : Map.
Variables map_rows map_cols : Z.
Variables tile_size max_distance : float.
Variable step_dir : Vector2.
Variables step_x step_y : Z.

Hypothesis open : unoccupied map = true.

Lemma body_no_hit (st st' : RayState) :
  loop_body nearer map map_rows map_cols tile_size step_dir step_x step_y st = Returns st' ->
  has_hit_wall st' = has_hit_wall st.
Proof.
  unfold loop_body.
  destruct (nearer _ _).
  - destruct (int_add (cur_map_x st) step_x) as [x'| | |]; cbn [bind]; try discriminate.
    destruct (_ && _).
    + destruct (read map _ _) as [cell|] eqn:Hc; [|discriminate].
      rewrite (read_unoccupied _ _ _ _ open Hc). now intros [= <-].
    + now intros [= <-].
  - destruct (int_add (cur_map_y st) step_y) as [y'| | |]; cbn [bind]; try discriminate.
    destruct (_ && _).
    + destruct (read map _ _) as [cell|] eqn:Hc; [|discriminate].
      rewrite (read_unoccupied _ _ _ _ open Hc). now intros [= <-].
    + now intros [= <-].
Qed.

Lemma traverse_no_hit (fuel : nat) (st st' : RayState) :
  traverse nearer map map_rows map_cols tile_size max_distance step_dir step_x step_y fuel st
  = Returns st' ->
  has_hit_wall st' = has_hit_wall st.
Proof.
  revert st. induction fuel as [|fuel IH]; intros st; cbn [traverse].
  - destruct (running max_distance st); [discriminate|]. now intros [= <-].
  - destruct (running max_distance st); [|now intros [= <-]].
    destruct (loop_body _ _ _ _ _ _ _ _ st) as [st1| | |] eqn:Hb; cbn [bind]; try discriminate.
    intro H. rewrite (IH _ H). now apply body_no_hit.
Qed.

End OpenGrid.

(** ** Entry to the loop *)

Lemma step_of_unit (component : float) : step_of component = -1 \/ step_of component = 1.
Proof. unfold step_of. destruct (F32.ltb component F32.zero); auto. Qed.

Lemma float_to_int_cases (f : float) :
  float_to_int f = Undefined
  \/ exists n, float_to_int f = Returns n /\ F32.trunc f = Some n /\ in_int n = true.
Proof.
  unfold float_to_int. destruct (F32.trunc f) as [n|]; [|now left].
  destruct (in_int n) eqn:Hn; [right|now left]. now exists n.
Qed.

Lemma first_boundary_cases (step cur : Z) (pos tile_size dir_len : float) :
  first_boundary step cur pos tile_size dir_len = Undefined
  \/ exists len, first_boundary step cur pos tile_size dir_len = Returns len.
Proof.
  unfold first_boundary. destruct (step =? -1); [right; eauto|].
  unfold int_add. destruct (in_int (cur + 1)); cbn [bind]; [right; eauto|now left].
Qed.

(** What [initial_state] returns, when it does. *)
Lemma initial_state_inv (start_pos direction : Vector2) (tile_size : float) (st0 : RayState) :
  initial_state start_pos direction tile_size = Returns st0 ->
  F32.trunc (F32.div (vx start_pos) tile_size) = Some (cur_map_x st0)
  /\ F32.trunc (F32.div (vy start_pos) tile_size) = Some (cur_map_y st0)
  /\ in_int (cur_map_x st0) = true /\ in_int (cur_map_y st0) = true
  /\ has_hit_wall st0 = false /\ distance st0 = F32.zero.
Proof.
  unfold initial_state.
  destruct (float_to_int_cases (F32.div (vx start_pos) tile_size)) as [->|(x0 & -> & Hx & Hix)];
    cbn [bind]; [discriminate|].
  destruct (float_to_int_cases (F32.div (vy start_pos) tile_size)) as [->|(y0 & -> & Hy & Hiy)];
    cbn [bind]; [discriminate|].
  destruct (first_boundary_cases (step_of (vx direction)) x0 (vx start_pos) tile_size
              (vx (step_dir_of direction))) as [->|[lx ->]]; cbn [bind]; [discriminate|].
  destruct (first_boundary_cases (step_of (vy direction)) y0 (vy start_pos) tile_size
              (vy (step_dir_of direction))) as [->|[ly ->]]; cbn [bind]; [discriminate|].
  intros [= <-]. cbn [cur_map_x cur_map_y has_hit_wall distance]. repeat split; assumption || reflexivity.
Qed.

Lemma initial_state_no_read (start_pos direction : Vector2) (tile_size : float) :
  initial_state start_pos direction tile_size <> BadRead.
Proof.
  unfold initial_state.
  destruct (float_to_int_cases (F32.div (vx start_pos) tile_size)) as [->|(x0 & -> & _)];
    cbn [bind]; [discriminate|].
  destruct (float_to_int_cases (F32.div (vy start_pos) tile_size)) as [->|(y0 & -> & _)];
    cbn [bind]; [discriminate|].
  destruct (first_boundary_cases (step_of (vx direction)) x0 (vx start_pos) tile_size
              (vx (step_dir_of direction))) as [->|[lx ->]]; cbn [bind]; [discriminate|].
  destruct (first_boundary_cases (step_of (vy direction)) y0 (vy start_pos) tile_size
              (vy (step_dir_of direction))) as [->|[ly ->]]; cbn [bind]; discriminate.
Qed.

(** ** Reads stay inside the grid *)

Section Reads.

Variable nearer : float -> float -> bool.
Variable map : Map.
Variables map_rows map_cols : Z.
Variables tile_size max_distance : float.
Variable step_dir : Vector2.
Variables step_x step_y : Z.

Hypothesis grid : well_formed map map_rows map_cols = true.

Lemma body_no_bad_read (st : RayState) :
  loop_body nearer map map_rows map_cols tile_size step_dir step_x step_y st <> BadRead.
Proof.
  unfold loop_body.
  destruct (nearer _ _).
  - unfold int_add. destruct (in_int _); cbn [bind]; [|discriminate].
    destruct (checked map map_rows map_cols grid (cur_map_x st + step_x) (cur_map_y st)
                (mkVector2 (F32.add (vx (ray_len st)) (F32.mul (vx step_dir) tile_size))
                   (vy (ray_len st)))
                (has_hit_wall st) (vx (ray_len st))) as [hit' ->].
    discriminate.
  - unfold int_add. destruct (in_int _); cbn [bind]; [|discriminate].
    destruct (checked map map_rows map_cols grid (cur_map_x st) (cur_map_y st + step_y)
                (mkVector2 (vx (ray_len st))
                   (F32.add (vy (ray_len st)) (F32.mul (vy step_dir) tile_size)))
                (has_hit_wall st) (vy (ray_len st))) as [hit' ->].
    discriminate.
Qed.

Lemma traverse_no_bad_read (fuel : nat) (st : RayState) :
  traverse nearer map map_rows map_cols tile_size max_distance step_dir step_x step_y fuel st
  <> BadRead.
Proof.
  revert st. induction fuel as [|fuel IH]; intro st; cbn [traverse].
  - destruct (running max_distance st); discriminate.
  - destruct (running max_distance st); [|discriminate].
    destruct (loop_body _ _ _ _ _ _ _ _ st) as [st'| | |] eqn:Hb; cbn [bind];
      try discriminate.
    + apply IH.
    + now apply body_no_bad_read in Hb.
Qed.

End Reads.



(** ** The starting cell *)

Lemma nth_error_set_nth_other {A : Type} (n k : nat) (a : A) (l : list A) :
  n <> k -> nth_error (set_nth n a l) k = nth_error l k.
Proof.
  revert n k. induction l as [|h t IH]; intros n k Hne; [reflexivity|].
  destruct n as [|n], k as [|k]; cbn; try reflexivity; try congruence.
  apply IH. congruence.
Qed.

Lemma nth_error_set_nth_same {A : Type} (n : nat) (a : A) (l : list A) :
  (n < length l)%nat -> nth_error (set_nth n a l) n = Some a.
Proof.
  revert n. induction l as [|h t IH]; intros n Hn; cbn in Hn; [lia|].
  destruct n as [|n]; cbn; [reflexivity|]. apply IH. lia.
Qed.

Lemma set_nth_beyond {A : Type} (n : nat) (a : A) (l : list A) :
  (length l <= n)%nat -> set_nth n a l = l.
Proof.
  revert n. induction l as [|h t IH]; intros n Hn; [reflexivity|].
  destruct n as [|n]; cbn in *; [lia|]. f_equal. apply IH. lia.
Qed.

Lemma read_set_cell_other (m : Map) (row col flag row' col' : Z) :
  row' <> row \/ col' <> col ->
  read (set_cell row col flag m) row' col' = read m row' col'.
Proof.
  intro Hne. unfold set_cell.
  destruct ((row <? 0) || (col <? 0)) eqn:Hneg; [reflexivity|].
  apply orb_false_iff in Hneg. destruct Hneg as [Hr Hc].
  apply Z.ltb_ge in Hr, Hc.
  unfold read. destruct ((row' <? 0) || (col' <? 0)) eqn:Hneg'; [reflexivity|].
  apply orb_false_iff in Hneg'. destruct Hneg' as [Hr' Hc'].
  apply Z.ltb_ge in Hr', Hc'.
  destruct (Z.eq_dec row' row) as [->|Hrow].
  - assert (Hcol : Z.to_nat col <> Z.to_nat col') by lia.
    destruct (Nat.lt_ge_cases (Z.to_nat row) (length m)) as [Hin|Hout].
    + rewrite nth_error_set_nth_same by exact Hin.
      rewrite nth_error_set_nth_other by exact Hcol.
      destruct (nth_error m (Z.to_nat row)) as [cells|] eqn:Hn.
      * now rewrite (nth_error_nth _ _ _ Hn).
      * apply nth_error_None in Hn. lia.
    + now rewrite set_nth_beyond by exact Hout.
  - rewrite nth_error_set_nth_other by lia. reflexivity.
Qed.

Lemma magnitude_nonneg (m : positive) (e : Z) : 0 <= F32.magnitude m e.
Proof.
  unfold F32.magnitude. destruct e.
  - apply Z.shiftl_nonneg. lia.
  - apply Z.shiftl_nonneg. lia.
  - apply Z.shiftr_nonneg. lia.
Qed.

(** Truncation and floor part only below zero. *)
Lemma floor_trunc (f : float) (a b : Z) :
  F32.floor f = Some a -> F32.trunc f = Some b -> a = b \/ a < 0.
Proof.
  destruct f as [s|s| |s m e]; cbn; try discriminate.
  - intros [= <-] [= <-]. now left.
  - pose proof (magnitude_nonneg m e). destruct s.
    + destruct (F32.integral m e); intros [= <-] [= <-]; [now left|right; lia].
    + intros [= <-] [= <-]. now left.
Qed.

Section StartCell.

Variable nearer : float -> float -> bool.
Variables map1 map2 : Map.
Variables map_rows map_cols : Z.
Variables tile_size max_distance : float.
Variable step_dir : Vector2.
Variables step_x step_y : Z.

Hypothesis unit_x : step_x = -1 \/ step_x = 1.
Hypothesis unit_y : step_y = -1 \/ step_y = 1.

Variables x0 y0 : Z.

Hypothesis agree :
  forall row col, row <> y0 \/ col <> x0 -> read map1 row col = read map2 row col.

(** The cell of [st] lies on the side of the starting cell the ray moves to. *)
Let ahead (st : RayState) : Prop :=
  0 <= (cur_map_x st - x0) * step_x /\ 0 <= (cur_map_y st - y0) * step_y.

Lemma body_same (st : RayState) :
  ahead st ->
  loop_body nearer map1 map_rows map_cols tile_size step_dir step_x step_y st
  = loop_body nearer map2 map_rows map_cols tile_size step_dir step_x step_y st.
Proof.
  intros [Hx Hy]. unfold loop_body.
  destruct (nearer _ _).
  - unfold int_add. destruct (in_int _); cbn [bind]; [|reflexivity].
    rewrite (agree (cur_map_y st) (cur_map_x st + step_x)); [reflexivity|].
    right. destruct unit_x as [E|E]; rewrite E in *; lia.
  - unfold int_add. destruct (in_int _); cbn [bind]; [|reflexivity].
    rewrite (agree (cur_map_y st + step_y) (cur_map_x st)); [reflexivity|].
    left. destruct unit_y as [E|E]; rewrite E in *; lia.
Qed.

Lemma body_ahead (map : Map) (st st' : RayState) :
  ahead st ->
  loop_body nearer map map_rows map_cols tile_size step_dir step_x step_y st = Returns st' ->
  ahead st'.
Proof.
  intros [Hx Hy]. unfold loop_body, ahead.
  destruct (nearer _ _).
  - unfold int_add. destruct (in_int _); cbn [bind]; [|discriminate].
    assert (Hx' : 0 <= (cur_map_x st + step_x - x0) * step_x)
      by (destruct unit_x as [E|E]; rewrite E in *; lia).
    destruct (_ && _); [destruct (read map _ _); [|discriminate]|];
      intros [= <-]; cbn [cur_map_x cur_map_y]; auto.
  - unfold int_add. destruct (in_int _); cbn [bind]; [|discriminate].
    assert (Hy' : 0 <= (cur_map_y st + step_y - y0) * step_y)
      by (destruct unit_y as [E|E]; rewrite E in *; lia).
    destruct (_ && _); [destruct (read map _ _); [|discriminate]|];
      intros [= <-]; cbn [cur_map_x cur_map_y]; auto.
Qed.

Lemma traverse_same (fuel : nat) (st : RayState) :
  ahead st ->
  traverse nearer map1 map_rows map_cols tile_size max_distance step_dir step_x step_y fuel st
  = traverse nearer map2 map_rows map_cols tile_size max_distance step_dir step_x step_y fuel st.
Proof.
  revert st. induction fuel as [|fuel IH]; intros st Ha; cbn [traverse]; [reflexivity|].
  destruct (running max_distance st); [|reflexivity].
  rewrite <- (body_same st Ha).
  destruct (loop_body nearer map1 _ _ _ _ _ _ st) as [st'| | |] eqn:Hb; cbn [bind];
    try reflexivity.
  apply IH. exact (body_ahead map1 st st' Ha Hb).
Qed.

End StartCell.

(** C8. The result of castRayDDA does not depend on the occupancy of
    the cell that holds the origin: whatever flag is written into that
    cell, the call returns the same distance (and, for every amount of
    fuel, comes to the same outcome). *)
Theorem castRayDDA_ignores_start_cell (fuel : nat) (start_pos direction : Vector2) (map : Map)
  (map_rows map_cols : Z) (tile_size max_distance : float) (row col flag : Z) :
  F32.floor (F32.div (vy start_pos) tile_size) = Some row ->
  F32.floor (F32.div (vx start_pos) tile_size) = Some col ->
  castRayDDA fuel start_pos direction (set_cell row col flag map) map_rows map_cols
    tile_size max_distance
  = castRayDDA fuel start_pos direction map map_rows map_cols tile_size max_distance.
Proof.
  intros Hrow Hcol. unfold castRayDDA, cast_ray.
  destruct (initial_state start_pos direction tile_size) as [st0| | |] eqn:H0; cbn [bind];
    try reflexivity.
  destruct (initial_state_inv _ _ _ _ H0) as (Hx & Hy & _).
  rewrite (traverse_same F32.ltb (set_cell row col flag map) map map_rows map_cols tile_size
             max_distance (step_dir_of direction) (step_of (vx direction))
             (step_of (vy direction)) (step_of_unit _) (step_of_unit _)
             (cur_map_x st0) (cur_map_y st0)).
  - reflexivity.
  - intros row' col' Hne.
    destruct (floor_trunc _ _ _ Hrow Hy) as [->|Hneg].
    + destruct (floor_trunc _ _ _ Hcol Hx) as [->|Hneg].
      * now apply read_set_cell_other.
      * unfold set_cell.
        replace (col <? 0) with true by (symmetry; apply Z.ltb_lt; lia).
        now rewrite orb_true_r.
    + unfold set_cell.
      now replace (row <? 0) with true by (symmetry; apply Z.ltb_lt; lia).
  - split; rewrite Z.sub_diag; cbn; lia.
Qed.

(** ** The tie-break *)


Section TieBreak.

Variable map : Map.
Variables map_rows map_cols : Z.
Variables tile_size max_distance : float.
Variable step_dir : Vector2.
Variables step_x step_y : Z.


End TieBreak.


(** ** Runs that use up the budget *)

(** The run from the entry state ends within [nx + ny + 1] iterations
    when the boundary number [nx] across and the boundary number [ny]
    along are not below the budget. *)
Lemma traverse_from_entry (map : Map) (map_rows map_cols : Z) (tile_size max_distance : float)
  (start_pos direction : Vector2) (st0 : RayState) (nx ny fuel : nat) :
  well_formed map map_rows map_cols = true ->
  initial_state start_pos direction tile_size = Returns st0 ->
  F32.ltb (boundary_x direction tile_size st0 nx) max_distance = false ->
  F32.ltb (boundary_y direction tile_size st0 ny) max_distance = false ->
  room (cur_map_x st0) (S nx) = true ->
  room (cur_map_y st0) (S ny) = true ->
  (nx + ny < fuel)%nat ->
  exists st,
    traverse F32.ltb map map_rows map_cols tile_size max_distance (step_dir_of direction)
      (step_of (vx direction)) (step_of (vy direction)) fuel st0 = Returns st.
Proof.
  intros Hwf H0 Hsx Hsy Hrx Hry Hfuel.
  destruct st0 as [x0 y0 [lx ly] hit d].
  unfold boundary_x, boundary_y in *. cbn [ray_len vx vy cur_map_x cur_map_y] in *.
  destruct (traverse_within F32.ltb map map_rows map_cols tile_size max_distance
              (step_dir_of direction) (step_of (vx direction)) (step_of (vy direction))
              Hwf (step_of_unit _) (step_of_unit _) x0 y0 lx ly nx ny Hsx Hsy Hrx Hry
              fuel 0%nat 0%nat hit d) as [st Hst]; try lia.
  exists st. cbn [Z.of_nat boundary Nat.iter] in Hst.
  rewrite !Z.mul_0_r, !Z.add_0_r in Hst. exact Hst.
Qed.

(** C4, as amended. On a grid without occupied cells castRayDDA
    returns exactly maxDistance whenever the boundary distances reach the
    budget: when some boundary distance of each axis (the numbers [nx]
    and [ny]) is not below maxDistance and the cell indices on the way
    fit [int], [nx + ny + 1] iterations are enough and the call returns
    maxDistance. *)
Theorem castRayDDA_open_grid (fuel : nat) (start_pos direction : Vector2) (map : Map)
  (map_rows map_cols : Z) (tile_size max_distance : float) (st0 : RayState) (nx ny : nat) :
  well_formed map map_rows map_cols = true ->
  unoccupied map = true ->
  initial_state start_pos direction tile_size = Returns st0 ->
  F32.ltb (boundary_x direction tile_size st0 nx) max_distance = false ->
  F32.ltb (boundary_y direction tile_size st0 ny) max_distance = false ->
  room (cur_map_x st0) (S nx) = true ->
  room (cur_map_y st0) (S ny) = true ->
  (nx + ny < fuel)%nat ->
  castRayDDA fuel start_pos direction map map_rows map_cols tile_size max_distance
  = Returns max_distance.
Proof.
  intros Hwf Hopen H0 Hsx Hsy Hrx Hry Hfuel.
  destruct (traverse_from_entry map map_rows map_cols tile_size max_distance start_pos
              direction st0 nx ny fuel Hwf H0 Hsx Hsy Hrx Hry Hfuel) as [st Hst].
  unfold castRayDDA, cast_ray. rewrite H0. cbn [bind]. rewrite Hst. cbn [bind].
  rewrite (traverse_no_hit _ _ _ _ _ _ _ _ _ Hopen _ _ _ Hst).
  destruct (initial_state_inv _ _ _ _ H0) as (_ & _ & _ & _ & -> & _). reflexivity.
Qed.

(** C6, as amended. The traversal loop of castRayDDA ends, after at
    most [nx + ny + 1] iterations, when the boundary distance number [nx]
    of the x axis and number [ny] of the y axis are not below
    maxDistance and the cell indices on the way fit [int]: the bound is
    the number of grid lines of the two axes within the budget, about
    maxDistance / (cellSize * stepLen.x) + maxDistance / (cellSize * stepLen.y). *)
Theorem castRayDDA_iterations (fuel : nat) (start_pos direction : Vector2) (map : Map)
  (map_rows map_cols : Z) (tile_size max_distance : float) (st0 : RayState) (nx ny : nat) :
  well_formed map map_rows map_cols = true ->
  initial_state start_pos direction tile_size = Returns st0 ->
  F32.ltb (boundary_x direction tile_size st0 nx) max_distance = false ->
  F32.ltb (boundary_y direction tile_size st0 ny) max_distance = false ->
  room (cur_map_x st0) (S nx) = true ->
  room (cur_map_y st0) (S ny) = true ->
  (nx + ny < fuel)%nat ->
  exists result,
    castRayDDA fuel start_pos direction map map_rows map_cols tile_size max_distance
    = Returns result.
Proof.
  intros Hwf H0 Hsx Hsy Hrx Hry Hfuel.
  destruct (traverse_from_entry map map_rows map_cols tile_size max_distance start_pos
              direction st0 nx ny fuel Hwf H0 Hsx Hsy Hrx Hry Hfuel) as [st Hst].
  unfold castRayDDA, cast_ray. rewrite H0. cbn [bind]. rewrite Hst. cbn [bind].
  eexists. reflexivity.
Qed.

(** Whatever the fuel, a call on a grid without occupied cells that
    returns, returns maxDistance. *)
Lemma castRayDDA_open_grid_returns (fuel : nat) (start_pos direction : Vector2) (map : Map)
  (map_rows map_cols : Z) (tile_size max_distance result : float) :
  unoccupied map = true ->
  castRayDDA fuel start_pos direction map map_rows map_cols tile_size max_distance
  = Returns result ->
  result = max_distance.
Proof.
  intros Hopen. unfold castRayDDA, cast_ray.
  destruct (initial_state start_pos direction tile_size) as [st0| | |] eqn:H0; cbn [bind];
    try discriminate.
  destruct (traverse _ _ _ _ _ _ _ _ _ fuel st0) as [st| | |] eqn:Ht; cbn [bind];
    try discriminate.
  rewrite (traverse_no_hit _ _ _ _ _ _ _ _ _ Hopen _ _ _ Ht).
  destruct (initial_state_inv _ _ _ _ H0) as (_ & _ & _ & _ & -> & _).
  now intros [= <-].
Qed.

(** ** Axis-aligned rays *)

Lemma in_indices (n i : Z) : In i (indices n) <-> 0 <= i < n.
Proof.
  unfold indices. rewrite in_map_iff. split.
  - intros (k & <- & Hk). apply in_seq in Hk. lia.
  - intros Hi. exists (Z.to_nat i). split; [lia|]. apply in_seq. lia.
Qed.



Section AxisRay.

Variable map : Map.
Variables map_rows map_cols : Z.
Variables tile_size max_distance : float.
Variable step_dir : Vector2.

Hypothesis grid : well_formed map map_rows map_cols = true.

Let run := traverse F32.ltb map map_rows map_cols tile_size max_distance step_dir 1 1.

Variables x0 y0 : Z.
Variables len_x len_y : float.
Variable n : nat.

Local Abbreviation across k := (boundary (F32.mul (vx step_dir) tile_size) len_x k).
Local Abbreviation along k := (boundary (F32.mul (vy step_dir) tile_size) len_y k).

Hypothesis budget : F32.ltb F32.zero max_distance = true.



(** *** Along the row *)
Section Row.

Hypothesis low : INT_MIN <= x0.
Hypothesis high : x0 + 1 + Z.of_nat n <= INT_MAX.
Hypothesis row : 0 <= y0 < map_rows.
Hypothesis column : 0 <= x0 + 1 + Z.of_nat n < map_cols.
Hypothesis free :
  forall k, (k < n)%nat -> 0 <= x0 + 1 + Z.of_nat k < map_cols ->
    occupied map y0 (x0 + 1 + Z.of_nat k) = false.
Hypothesis wall : occupied map y0 (x0 + 1 + Z.of_nat n) = true.
Hypothesis nearer_x : forall k, (k <= n)%nat -> F32.ltb (across k) len_y = true.
Hypothesis within : forall k, (k < n)%nat -> F32.ltb (across k) max_distance = true.


End Row.

(** *** Along the column *)
Section Column.

Hypothesis low : INT_MIN <= y0.
Hypothesis high : y0 + 1 + Z.of_nat n <= INT_MAX.
Hypothesis column : 0 <= x0 < map_cols.
Hypothesis row : 0 <= y0 + 1 + Z.of_nat n < map_rows.
Hypothesis free :
  forall k, (k < n)%nat -> 0 <= y0 + 1 + Z.of_nat k < map_rows ->
    occupied map (y0 + 1 + Z.of_nat k) x0 = false.
Hypothesis wall : occupied map (y0 + 1 + Z.of_nat n) x0 = true.
Hypothesis nearer_y : forall k, (k <= n)%nat -> F32.ltb len_x (along k) = false.
Hypothesis within : forall k, (k < n)%nat -> F32.ltb (along k) max_distance = true.


End Column.

End AxisRay.




(** ** drawDottedLine *)


Section Dotted.

Variable dir : Vector2.
Variable len : float.
Variable start_pos : Vector2.


End Dotted.








(** ** A segment of length zero *)

Lemma sub_diag (x : float) : F32.is_finite x = true -> F32.sub x x = F32.zero.
Proof.
  destruct x as [s|s| |s m e]; try discriminate; intros _.
  - now destruct s.
  - unfold F32.sub, SFsub. rewrite Z.sub_diag. reflexivity.
Qed.

(** Twice a positive binary32 value is a positive value or [+infinity]. *)
Lemma mul_two_positive (len : float) :
  F32.valid len = true -> F32.ltb F32.zero len = true ->
  F32.mul len two = S754_infinity false
  \/ exists m e, F32.mul len two = S754_finite false m e.
Proof.
  destruct len as [s|s| |s m e]; try discriminate.
  - destruct s; [discriminate|]. intros _ _. now left.
  - destruct s; [discriminate|]. intros Hvalid _.
    unfold F32.valid, valid_binary, bounded, canonical_mantissa in Hvalid.
    apply andb_true_iff in Hvalid. destruct Hvalid as [Hcanon Hmax].
    apply Z.eqb_eq in Hcanon. apply Z.leb_le in Hmax. rewrite fexp_eq in Hcanon.
    change two with (S754_finite false (F32.shl 23 1) (-22)).
    unfold F32.mul, SFmul. cbn [xorb].
    rewrite mul_shl, Pos.mul_1_r.
    pose (n := Z.to_nat (Z.max (Zpos (digits2_pos m) + e - 23) (-149) - (e - 22))).
    assert (Hn : (n <= 23)%nat) by (unfold n; lia).
    replace 23%nat with (n + (23 - n))%nat by lia.
    rewrite (round_exact false m n (23 - n) (e + -22))
      by (rewrite fexp_eq; unfold n; lia).
    destruct (e + -22 + Z.of_nat n <=? F32.emax - F32.prec); [right|left]; eauto.
Qed.

Lemma div_zero_positive (len : float) :
  F32.valid len = true -> F32.ltb F32.zero len = true ->
  F32.div F32.zero (F32.mul len two) = F32.zero.
Proof.
  intros Hv Hp. destruct (mul_two_positive len Hv Hp) as [->|(m & e & ->)]; reflexivity.
Qed.

(** C9. drawDottedLine on a segment from a point to itself draws
    nothing, for every point of the plane (finite coordinates) and every
    dash length [d > 0]; the direction of the segment is normalized
    without a division: the length is not positive and the direction is
    the zero vector. *)
Theorem dotted_line_zero_length (len : float) (point : Vector2) :
  F32.is_finite (vx point) = true ->
  F32.is_finite (vy point) = true ->
  F32.valid len = true ->
  F32.ltb F32.zero len = true ->
  dotted_line len point point = Returns []
  /\ Vector2Normalize (Vector2Subtract point point) = Vector2Zero.
Proof.
  intros Hx Hy Hv Hp.
  assert (Hsub : Vector2Subtract point point = Vector2Zero).
  { unfold Vector2Subtract. now rewrite !sub_diag. }
  split.
  - unfold dotted_line, Vector2Distance. rewrite !sub_diag by assumption.
    change (F32.sqrtf (F32.add (F32.mul F32.zero F32.zero) (F32.mul F32.zero F32.zero)))
      with F32.zero.
    rewrite div_zero_positive by assumption. reflexivity.
  - rewrite Hsub. reflexivity.
Qed.

(** * Particular inputs *)

(** ** The budget *)

(** C1. With the wall one cell ahead, at distance 10, and a budget of
    5, castRayDDA returns 10: the loop is entered with distance 0 < 5,
    advances to the boundary at 10, finds the wall there and returns that
    distance, which exceeds maxDistance. *)
Theorem castRayDDA_overshoots (fuel : nat) :
  castRayDDA (S fuel) Overshoot.start_pos unit_x Overshoot.map 1 2
    Overshoot.tile_size Overshoot.max_distance = Returns (fl 10)
  /\ F32.ltb Overshoot.max_distance (fl 10) = true.
Proof.
  split; [|reflexivity].
  unfold castRayDDA, cast_ray.
  change (initial_state Overshoot.start_pos unit_x Overshoot.tile_size)
    with (Returns Overshoot.entry).
  cbn [bind]. rewrite traverse_step by reflexivity.
  change (loop_body F32.ltb Overshoot.map 1 2 Overshoot.tile_size (step_dir_of unit_x)
            (step_of (vx unit_x)) (step_of (vy unit_x)) Overshoot.entry)
    with (Returns Overshoot.hit).
  cbn [bind]. rewrite traverse_stopped by reflexivity. reflexivity.
Qed.

(** ** The starting cell *)

(** Where the quotient is not negative the conversion to [int] is the floor. *)
Lemma trunc_floor_from_zero (f : float) (n : Z) :
  F32.floor f = Some n -> 0 <= n -> F32.trunc f = Some n.
Proof.
  destruct f as [s|s| |s m e]; cbn; try discriminate; [trivial|].
  pose proof (magnitude_nonneg m e). destruct s; [|trivial].
  destruct (F32.integral m e); intros [= <-] Hn; [|lia].
  f_equal.
Qed.

(** C2. From the origin (-10, 10) over cells of size 20 the quotient
    of the x coordinate is -0.5: its floor is -1, and castRayDDA starts
    in column 0, the conversion to [int] rounding towards zero. *)
Theorem start_cell_truncates :
  F32.floor (F32.div (vx Outside.near_pos) Outside.tile_size) = Some (-1)
  /\ exists st0,
       initial_state Outside.near_pos unit_x Outside.tile_size = Returns st0
       /\ cur_map_x st0 = 0.
Proof.
  split; [reflexivity|].
  eexists. split; [vm_compute; reflexivity|reflexivity].
Qed.

(** A starting cell at or beyond column 0 is the floor of the quotient. *)
Lemma start_cell_floor_from_zero (start_pos direction : Vector2) (tile_size : float)
  (st0 : RayState) (col : Z) :
  initial_state start_pos direction tile_size = Returns st0 ->
  F32.floor (F32.div (vx start_pos) tile_size) = Some col ->
  0 <= col ->
  cur_map_x st0 = col.
Proof.
  intros H0 Hfloor Hcol.
  destruct (initial_state_inv _ _ _ _ H0) as (Hx & _).
  rewrite (trunc_floor_from_zero _ _ Hfloor Hcol) in Hx. congruence.
Qed.

(** The wall in column 0, at distance 10 from that origin, is not found:
    the first cell tested is column 1, and the call returns the budget. *)
Lemma axis_ray_misses_first_column :
  walls_in_row Outside.wall_first 3 0 = [0]
  /\ castRayDDA 100 Outside.near_pos unit_x Outside.wall_first 1 3
       Outside.tile_size Outside.max_distance = Returns Outside.max_distance.
Proof. split; vm_compute; reflexivity. Qed.

(** From (-30, 10) the ray enters the grid and finds the wall of column 2
    at distance 70. *)
Lemma ray_from_outside_hits :
  castRayDDA 100 Outside.far_pos unit_x Outside.wall_third 1 3
    Outside.tile_size Outside.max_distance = Returns (fl 70).
Proof. vm_compute. reflexivity. Qed.


Lemma castRayDDA_ignores_start_cell_witness :
  F32.floor (F32.div (vy Scenario.start_pos) Scenario.tile_size) = Some 20
  /\ F32.floor (F32.div (vx Scenario.start_pos) Scenario.tile_size) = Some 20
  /\ castRayDDA 100 Scenario.start_pos unit_x (set_cell 20 20 1 Scenario.map) 80 80
       Scenario.tile_size Scenario.max_distance
     = castRayDDA 100 Scenario.start_pos unit_x Scenario.map 80 80
         Scenario.tile_size Scenario.max_distance.
Proof.
  split; [reflexivity|]. split; [reflexivity|].
  apply castRayDDA_ignores_start_cell; reflexivity.
Defined.

(** ** The tie-break *)



(** ** Open grids and termination *)

(** C4, a counterexample. On the grid of one free cell, over cells of
    size 1 and with a budget of [2^25], the ray along the x axis never
    comes back: the distance grows by 1 for each cell up to [2^24] and
    stays there, [2^24 + 1] being rounded to [2^24], so that the loop
    condition holds for ever (until the cell index overflows). *)
Lemma open_grid_long_ray :
  well_formed LongRay.map 1 1 = true
  /\ unoccupied LongRay.map = true
  /\ F32.ltb F32.zero LongRay.tile_size = true
  /\ F32.leb F32.zero LongRay.max_distance = true
  /\ forall fuel,
       castRayDDA fuel LongRay.start_pos LongRay.direction LongRay.map 1 1
         LongRay.tile_size LongRay.max_distance <> Returns LongRay.max_distance.
Proof.
  repeat (split; [reflexivity|]).
  intro fuel. apply long_ray_never_returns.
Qed.

Lemma castRayDDA_open_grid_witness :
  well_formed (empty_map 80 80) 80 80 = true
  /\ unoccupied (empty_map 80 80) = true
  /\ initial_state Scenario.start_pos unit_x Scenario.tile_size = Returns Scenario.entry
  /\ F32.ltb (boundary_x unit_x Scenario.tile_size Scenario.entry 49)
       Scenario.max_distance = false
  /\ F32.ltb (boundary_y unit_x Scenario.tile_size Scenario.entry 0)
       Scenario.max_distance = false
  /\ room (cur_map_x Scenario.entry) 50 = true
  /\ room (cur_map_y Scenario.entry) 1 = true
  /\ (49 + 0 < 50)%nat
  /\ castRayDDA 50 Scenario.start_pos unit_x (empty_map 80 80) 80 80
       Scenario.tile_size Scenario.max_distance = Returns Scenario.max_distance.
Proof.
  repeat (split; [vm_compute; reflexivity|]).
  apply (castRayDDA_open_grid 50 Scenario.start_pos unit_x (empty_map 80 80) 80 80
           Scenario.tile_size Scenario.max_distance Scenario.entry 49 0);
    vm_compute; reflexivity.
Defined.

(** C6, a counterexample. The long ray over unit cells never leaves
    the loop, whatever the fuel; and where the loop ends the bound is
    still wrong: along the diagonal over unit cells a budget of 100
    takes more than 140 iterations and a budget of 200 more than 281,
    while maxDistance / (cellSize * min(stepLen.x, stepLen.y)) is below
    71 and below 142, so that the excess grows with the budget. *)
Lemma traversal_not_bounded :
  (F32.ltb F32.zero LongRay.tile_size = true
   /\ F32.is_finite LongRay.max_distance = true
   /\ forall fuel result,
        castRayDDA fuel LongRay.start_pos LongRay.direction LongRay.map 1 1
          LongRay.tile_size LongRay.max_distance <> Returns result)
  /\ vx (step_dir_of Diagonal.direction) = vy (step_dir_of Diagonal.direction)
  /\ (castRayDDA 140 Diagonal.start_pos Diagonal.direction Diagonal.map 1 1
        Diagonal.tile_size (fl 100) = Timeout
      /\ F32.ltb (Diagonal.spec_bound (fl 100)) (fl 71) = true)
  /\ (castRayDDA 281 Diagonal.start_pos Diagonal.direction Diagonal.map 1 1
        Diagonal.tile_size (fl 200) = Timeout
      /\ F32.ltb (Diagonal.spec_bound (fl 200)) (fl 142) = true).
Proof.
  split; [|split; [|split]].
  - repeat (split; [reflexivity|]). intros fuel result. apply long_ray_never_returns.
  - vm_compute. reflexivity.
  - split; vm_compute; reflexivity.
  - split; vm_compute; reflexivity.
Qed.

Lemma castRayDDA_iterations_witness :
  well_formed Scenario.map 80 80 = true
  /\ initial_state Scenario.start_pos unit_x Scenario.tile_size = Returns Scenario.entry
  /\ F32.ltb (boundary_x unit_x Scenario.tile_size Scenario.entry 49)
       Scenario.max_distance = false
  /\ F32.ltb (boundary_y unit_x Scenario.tile_size Scenario.entry 0)
       Scenario.max_distance = false
  /\ room (cur_map_x Scenario.entry) 50 = true
  /\ room (cur_map_y Scenario.entry) 1 = true
  /\ (49 + 0 < 50)%nat
  /\ exists result,
       castRayDDA 50 Scenario.start_pos unit_x Scenario.map 80 80
         Scenario.tile_size Scenario.max_distance = Returns result.
Proof.
  repeat (split; [vm_compute; reflexivity|]).
  apply (castRayDDA_iterations 50 Scenario.start_pos unit_x Scenario.map 80 80
           Scenario.tile_size Scenario.max_distance Scenario.entry 49 0);
    vm_compute; reflexivity.
Defined.

(** ** Axis-aligned rays *)



(** The same along the y axis, on the transposed scenario. *)
Lemma axis_ray_down_the_column :
  castRayDDA 5 Scenario.start_pos unit_y (wall_at 25 20 (empty_map 80 80)) 80 80
    Scenario.tile_size Scenario.max_distance = Returns (fl 100).
Proof. vm_compute. reflexivity. Qed.

(** ** The dotted line *)

Lemma dotted_line_zero_length_witness :
  F32.is_finite (fl 400) = true
  /\ F32.valid (fl 4) = true
  /\ F32.ltb F32.zero (fl 4) = true
  /\ drawDottedLine (vec 400 400) (vec 400 400) = Returns [].
Proof.
  repeat (split; [reflexivity|]).
  apply (dotted_line_zero_length (fl 4) (vec 400 400)); reflexivity.
Defined.


(** * The walk and the first wall *)

(** The state [st] with [has_hit_wall] set. *)
Local Abbreviation struck st :=
  (mkRayState (cur_map_x st) (cur_map_y st) (ray_len st) true (distance st)).

Section Walk.

Variable map : Map.
Variables map_rows map_cols : Z.
Variables tile_size max_distance : float.
Variable step_dir : Vector2.
Variables step_x step_y : Z.

Local Abbreviation body := (loop_body F32.ltb map map_rows map_cols tile_size step_dir step_x step_y).
Local Abbreviation run :=
  (traverse F32.ltb map map_rows map_cols tile_size max_distance step_dir step_x step_y).
Local Abbreviation step := (advance tile_size step_dir step_x step_y).
Local Abbreviation free :=
  (free_run map map_rows map_cols tile_size max_distance step_dir step_x step_y).
Local Abbreviation wall := (entered_wall map map_rows map_cols).

Lemma no_cell (x y : Z) : (x >=? 0) && (x <? 0) && (y >=? 0) && (y <? 0) = false.
Proof.
  destruct (x >=? 0) eqn:H1; [|reflexivity].
  replace (x <? 0) with false; [reflexivity|].
  symmetry. apply Z.ltb_ge. now apply Z.geb_le in H1.
Qed.

Lemma advance_keeps_flag (st st1 : RayState) :
  step st = Returns st1 -> has_hit_wall st1 = has_hit_wall st.
Proof.
  unfold advance, loop_body.
  destruct (F32.ltb _ _);
    (destruct (int_add _ _) as [v| | |]; cbn [bind]; try discriminate);
    rewrite no_cell; now intros [= <-].
Qed.

(** An iteration is an advance and the test of the cell entered. *)
Lemma body_is_advance (st : RayState) :
  has_hit_wall st = false ->
  match step st with
  | Returns st1 =>
      if (cur_map_x st1 >=? 0) && (cur_map_x st1 <? map_cols)
         && (cur_map_y st1 >=? 0) && (cur_map_y st1 <? map_rows)
      then match read map (cur_map_y st1) (cur_map_x st1) with
           | Some cell => body st = Returns (if cell =? 1 then struck st1 else st1)
           | None => body st = BadRead
           end
      else body st = Returns st1
  | other => body st = other
  end.
Proof.
  intro Hhit. unfold advance, loop_body. rewrite Hhit.
  destruct (F32.ltb _ _);
    (destruct (int_add _ _) as [v| | |]; cbn [bind]; try reflexivity);
    rewrite no_cell; cbn [cur_map_x cur_map_y ray_len distance];
    (destruct (_ && _); [|reflexivity]);
    (destruct (read map _ _) as [cell|]; [|reflexivity]);
    now destruct (cell =? 1).
Qed.

Lemma body_free (st st1 : RayState) :
  well_formed map map_rows map_cols = true ->
  has_hit_wall st = false -> step st = Returns st1 -> wall st1 = false ->
  body st = Returns st1.
Proof.
  intros Hwf Hhit Hs Hw. pose proof (body_is_advance st Hhit) as H. rewrite Hs in H.
  unfold entered_wall in Hw.
  destruct ((cur_map_x st1 >=? 0) && (cur_map_x st1 <? map_cols)
            && (cur_map_y st1 >=? 0) && (cur_map_y st1 <? map_rows)) eqn:Hb;
    [|exact H].
  rewrite !andb_true_iff, !Z.geb_le, !Z.ltb_lt in Hb.
  destruct (read_in_bounds map map_rows map_cols (cur_map_y st1) (cur_map_x st1) Hwf)
    as [cell Hc]; [lia|lia|].
  rewrite Hc in H. cbn [andb] in Hw. unfold occupied in Hw. rewrite Hc in Hw.
  now rewrite Hw in H.
Qed.

Lemma body_wall (st st1 : RayState) :
  has_hit_wall st = false -> step st = Returns st1 -> wall st1 = true ->
  body st = Returns (struck st1).
Proof.
  intros Hhit Hs Hw. pose proof (body_is_advance st Hhit) as H. rewrite Hs in H.
  unfold entered_wall in Hw. apply andb_true_iff in Hw. destruct Hw as [Hb Ho].
  rewrite Hb in H. unfold occupied in Ho.
  destruct (read map _ _) as [cell|]; [|discriminate]. now rewrite Ho in H.
Qed.

Lemma body_inv (st st2 : RayState) :
  has_hit_wall st = false -> body st = Returns st2 ->
  exists st1, step st = Returns st1
    /\ ((wall st1 = true /\ st2 = struck st1) \/ (wall st1 = false /\ st2 = st1)).
Proof.
  intros Hhit Hb. pose proof (body_is_advance st Hhit) as H.
  destruct (step st) as [st1| | |] eqn:Hs; try congruence.
  exists st1. split; [reflexivity|]. unfold entered_wall.
  destruct ((cur_map_x st1 >=? 0) && (cur_map_x st1 <? map_cols)
            && (cur_map_y st1 >=? 0) && (cur_map_y st1 <? map_rows)) eqn:Hbounds;
    cbn [andb].
  - unfold occupied. destruct (read map _ _) as [cell|]; [|congruence].
    destruct (cell =? 1); [left|right]; split; congruence.
  - right. split; congruence.
Qed.

Lemma walk_last (k : nat) (st : RayState) :
  walk tile_size step_dir step_x step_y (S k) st
  = (st' <- walk tile_size step_dir step_x step_y k st ;; step st').
Proof.
  revert st. induction k as [|k IH]; intro st.
  - cbn [walk bind]. destruct (step st); reflexivity.
  - change (walk tile_size step_dir step_x step_y (S (S k)) st)
      with (st' <- step st ;; walk tile_size step_dir step_x step_y (S k) st').
    cbn [walk]. destruct (step st) as [st1| | |]; cbn [bind]; try reflexivity.
    apply IH.
Qed.

(** The first wall of the walk ends the run. *)
Lemma run_to_wall (n fuel : nat) (st sn st' : RayState) :
  well_formed map map_rows map_cols = true ->
  has_hit_wall st = false ->
  free n st = true ->
  walk tile_size step_dir step_x step_y n st = Returns sn ->
  F32.ltb (distance sn) max_distance = true ->
  step sn = Returns st' -> wall st' = true ->
  (n < fuel)%nat ->
  run fuel st = Returns (struck st').
Proof.
  intros Hwf. revert fuel st. induction n as [|n IH]; intros fuel st Hhit Hfree Hwalk Hd Hs Hw Hf;
    (destruct fuel as [|fuel]; [lia|]); cbn [walk free_run] in *.
  - injection Hwalk as <-.
    rewrite traverse_step by (unfold running; now rewrite Hhit, Hd).
    rewrite (body_wall st st' Hhit Hs Hw). cbn [bind].
    now apply traverse_stopped.
  - apply andb_true_iff in Hfree. destruct Hfree as [Hd0 Hfree].
    destruct (step st) as [st1| | |] eqn:Hs1; try discriminate. cbn [bind] in Hwalk.
    apply andb_true_iff in Hfree. destruct Hfree as [Hw1 Hfree].
    apply negb_true_iff in Hw1.
    rewrite traverse_step by (unfold running; now rewrite Hhit, Hd0).
    rewrite (body_free st st1 Hwf Hhit Hs1 Hw1). cbn [bind].
    apply (IH fuel st1); try assumption; [|lia].
    rewrite (advance_keeps_flag st st1 Hs1). exact Hhit.
Qed.

(** A walk without walls ends where the budget is used up. *)
Lemma run_to_budget (n fuel : nat) (st sn : RayState) :
  well_formed map map_rows map_cols = true ->
  has_hit_wall st = false ->
  free n st = true ->
  walk tile_size step_dir step_x step_y n st = Returns sn ->
  F32.ltb (distance sn) max_distance = false ->
  (n <= fuel)%nat ->
  run fuel st = Returns sn /\ has_hit_wall sn = false.
Proof.
  intros Hwf. revert fuel st. induction n as [|n IH]; intros fuel st Hhit Hfree Hwalk Hd Hf;
    cbn [walk free_run] in *.
  - injection Hwalk as <-. split; [|exact Hhit].
    apply traverse_stopped. unfold running. rewrite Hd. apply andb_false_r.
  - destruct fuel as [|fuel]; [lia|].
    apply andb_true_iff in Hfree. destruct Hfree as [Hd0 Hfree].
    destruct (step st) as [st1| | |] eqn:Hs1; try discriminate. cbn [bind] in Hwalk.
    apply andb_true_iff in Hfree. destruct Hfree as [Hw1 Hfree].
    apply negb_true_iff in Hw1.
    rewrite traverse_step by (unfold running; now rewrite Hhit, Hd0).
    rewrite (body_free st st1 Hwf Hhit Hs1 Hw1). cbn [bind].
    apply (IH fuel st1); try assumption; [|lia].
    rewrite (advance_keeps_flag st st1 Hs1). exact Hhit.
Qed.

(** A run that ends with a hit stopped at the first wall of the walk. *)
Lemma run_hit_inv (fuel : nat) (st sf : RayState) :
  has_hit_wall st = false ->
  run fuel st = Returns sf -> has_hit_wall sf = true ->
  exists n sn st',
    (n < fuel)%nat /\ free n st = true
    /\ walk tile_size step_dir step_x step_y n st = Returns sn
    /\ F32.ltb (distance sn) max_distance = true
    /\ step sn = Returns st' /\ wall st' = true /\ sf = struck st'.
Proof.
  revert st. induction fuel as [|fuel IH]; intros st Hhit Hrun Hsf.
  - destruct (running max_distance st) eqn:Hr.
    + now rewrite traverse_timeout in Hrun.
    + rewrite traverse_stopped in Hrun by exact Hr. congruence.
  - destruct (running max_distance st) eqn:Hr.
    + rewrite traverse_step in Hrun by exact Hr.
      unfold running in Hr. rewrite Hhit in Hr. cbn [negb andb] in Hr.
      destruct (body st) as [st2| | |] eqn:Hb; cbn [bind] in Hrun; try discriminate.
      destruct (body_inv st st2 Hhit Hb) as (st1 & Hs1 & [[Hw ->]|[Hw ->]]).
      * rewrite traverse_stopped in Hrun by reflexivity. injection Hrun as <-.
        exists 0%nat, st, st1. repeat split; try assumption; try reflexivity; lia.
      * assert (Hhit1 : has_hit_wall st1 = false)
          by (rewrite (advance_keeps_flag st st1 Hs1); exact Hhit).
        destruct (IH st1 Hhit1 Hrun Hsf) as (n & sn & st' & Hn & Hfree & Hwalk & Hd & Hs & Hw' & ->).
        exists (S n), sn, st'. repeat split; try assumption; try lia.
        -- cbn [free_run]. now rewrite Hr, Hs1, Hw, Hfree.
        -- cbn [walk]. now rewrite Hs1.
    + rewrite traverse_stopped in Hrun by exact Hr. congruence.
Qed.

End Walk.

(** ** The order of binary32 values *)

Ltac compare_cases :=
  repeat match goal with
         | |- context [Z.compare ?a ?b] => destruct (Z.compare_spec a b)
         | |- context [Pos.compare_cont Eq ?a ?b] =>
             change (Pos.compare_cont Eq a b) with (Pos.compare a b);
             destruct (Pos.compare_spec a b)
         end.

(** [a < b] and [b <= c] give [a < c], as the comparisons of C decide them. *)
Lemma ltb_leb_trans (a b c : float) :
  F32.ltb a b = true -> F32.leb b c = true -> F32.ltb a c = true.
Proof.
  unfold F32.ltb, F32.leb, SFltb, SFleb.
  destruct a as [sa|sa| |sa ma ea], b as [sb|sb| |sb mb eb], c as [sc|sc| |sc mc ec];
    try destruct sa; try destruct sb; try destruct sc;
    cbn [SFcompare CompOpp]; try discriminate; try reflexivity;
    compare_cases; cbn [CompOpp]; try discriminate; try reflexivity;
    intros _ _; exfalso; subst; lia.
Qed.

(** ** What castRayDDA returns *)

Lemma run_hit_larger_budget (map : Map) (map_rows map_cols : Z) (tile_size : float)
  (step_dir : Vector2) (step_x step_y : Z) (max1 max2 : float) (fuel : nat)
  (st sf : RayState) :
  F32.leb max1 max2 = true ->
  traverse F32.ltb map map_rows map_cols tile_size max1 step_dir step_x step_y fuel st
  = Returns sf ->
  has_hit_wall sf = true ->
  traverse F32.ltb map map_rows map_cols tile_size max2 step_dir step_x step_y fuel st
  = Returns sf.
Proof.
  intros Hle. revert st. induction fuel as [|fuel IH]; intros st Hrun Hsf.
  - destruct (running max1 st) eqn:Hr.
    + now rewrite traverse_timeout in Hrun.
    + rewrite traverse_stopped in Hrun by exact Hr. injection Hrun as <-.
      apply traverse_stopped. unfold running. now rewrite Hsf.
  - destruct (running max1 st) eqn:Hr.
    + rewrite traverse_step in Hrun by exact Hr.
      assert (Hr2 : running max2 st = true).
      { unfold running in *. apply andb_true_iff in Hr. destruct Hr as [Hh Hd].
        rewrite Hh. exact (ltb_leb_trans _ _ _ Hd Hle). }
      rewrite traverse_step by exact Hr2.
      destruct (loop_body _ _ _ _ _ _ _ _ st) as [st1| | |]; cbn [bind] in *;
        try discriminate.
      now apply IH.
    + rewrite traverse_stopped in Hrun by exact Hr. injection Hrun as <-.
      apply traverse_stopped. unfold running. now rewrite Hsf.
Qed.

(** X1. A budget that is not above zero (zero, negative or NaN) is
    returned as it is, for every grid: the loop is not entered and no
    cell is read. *)
Theorem castRayDDA_spent_budget (fuel : nat) (start_pos direction : Vector2) (map : Map)
  (map_rows map_cols : Z) (tile_size max_distance : float) (st0 : RayState) :
  initial_state start_pos direction tile_size = Returns st0 ->
  F32.ltb F32.zero max_distance = false ->
  castRayDDA fuel start_pos direction map map_rows map_cols tile_size max_distance
  = Returns max_distance.
Proof.
  intros H0 Hmax.
  destruct (initial_state_inv _ _ _ _ H0) as (_ & _ & _ & _ & Hhit & Hd).
  unfold castRayDDA, cast_ray. rewrite H0. cbn [bind].
  rewrite traverse_stopped by (unfold running; rewrite Hd, Hmax; apply andb_false_r).
  cbn [bind]. now rewrite Hhit.
Qed.

(** X2. A distance other than the budget is the distance of the first
    wall of the walk: the call has made [n] advances within the budget
    that entered no wall, then one more, from a distance below the
    budget, into an occupied cell inside the bounds, and returns the
    distance of that advance. *)
Theorem castRayDDA_hit_is_first_wall (fuel : nat) (start_pos direction : Vector2) (map : Map)
  (map_rows map_cols : Z) (tile_size max_distance result : float) :
  castRayDDA fuel start_pos direction map map_rows map_cols tile_size max_distance
  = Returns result ->
  result <> max_distance ->
  exists n sn st',
    (n < fuel)%nat
    /\ ray_free_run start_pos direction map map_rows map_cols tile_size max_distance n = true
    /\ ray_walk start_pos direction tile_size n = Returns sn
    /\ F32.ltb (distance sn) max_distance = true
    /\ ray_walk start_pos direction tile_size (S n) = Returns st'
    /\ entered_wall map map_rows map_cols st' = true
    /\ result = distance st'.
Proof.
  unfold castRayDDA, cast_ray, ray_free_run, ray_walk.
  destruct (initial_state start_pos direction tile_size) as [st0| | |] eqn:H0; cbn [bind];
    try discriminate.
  destruct (initial_state_inv _ _ _ _ H0) as (_ & _ & _ & _ & Hhit & _).
  destruct (traverse _ _ _ _ _ _ _ _ _ fuel st0) as [sf| | |] eqn:Hrun; cbn [bind];
    try discriminate.
  intros [= <-] Hne.
  destruct (has_hit_wall sf) eqn:Hsf; [|congruence].
  destruct (run_hit_inv _ _ _ _ _ _ _ _ fuel st0 sf Hhit Hrun Hsf)
    as (n & sn & st' & Hn & Hfree & Hwalk & Hd & Hs & Hw & ->).
  exists n, sn, st'. repeat split; try assumption.
  rewrite walk_last, Hwalk. exact Hs.
Qed.

(** X3. The first wall of the walk is found: when [n] advances within
    the budget enter no wall and the next one, made from a distance
    below the budget, enters an occupied cell inside the bounds, the call
    returns the distance of that advance. *)
Theorem castRayDDA_finds_first_wall (fuel n : nat) (start_pos direction : Vector2) (map : Map)
  (map_rows map_cols : Z) (tile_size max_distance : float) (sn st' : RayState) :
  well_formed map map_rows map_cols = true ->
  ray_free_run start_pos direction map map_rows map_cols tile_size max_distance n = true ->
  ray_walk start_pos direction tile_size n = Returns sn ->
  F32.ltb (distance sn) max_distance = true ->
  ray_walk start_pos direction tile_size (S n) = Returns st' ->
  entered_wall map map_rows map_cols st' = true ->
  (n < fuel)%nat ->
  castRayDDA fuel start_pos direction map map_rows map_cols tile_size max_distance
  = Returns (distance st').
Proof.
  unfold castRayDDA, cast_ray, ray_free_run, ray_walk.
  intros Hwf.
  destruct (initial_state start_pos direction tile_size) as [st0| | |] eqn:H0; cbn [bind];
    try discriminate.
  destruct (initial_state_inv _ _ _ _ H0) as (_ & _ & _ & _ & Hhit & _).
  intros Hfree Hwalk Hd Hnext Hw Hfuel.
  rewrite walk_last, Hwalk in Hnext. cbn [bind] in Hnext.
  rewrite (run_to_wall map map_rows map_cols tile_size max_distance (step_dir_of direction)
             (step_of (vx direction)) (step_of (vy direction)) n fuel st0 sn st'
             Hwf Hhit Hfree Hwalk Hd Hnext Hw Hfuel).
  reflexivity.
Qed.

(** X4. A walk that enters no wall before the budget is used up gives
    the budget: when [n] advances within the budget enter no wall and the
    distance after them is not below maxDistance, the call returns
    maxDistance, whatever walls the grid has elsewhere. *)
Theorem castRayDDA_misses (fuel n : nat) (start_pos direction : Vector2) (map : Map)
  (map_rows map_cols : Z) (tile_size max_distance : float) (sn : RayState) :
  well_formed map map_rows map_cols = true ->
  ray_free_run start_pos direction map map_rows map_cols tile_size max_distance n = true ->
  ray_walk start_pos direction tile_size n = Returns sn ->
  F32.ltb (distance sn) max_distance = false ->
  (n <= fuel)%nat ->
  castRayDDA fuel start_pos direction map map_rows map_cols tile_size max_distance
  = Returns max_distance.
Proof.
  unfold castRayDDA, cast_ray, ray_free_run, ray_walk.
  intros Hwf.
  destruct (initial_state start_pos direction tile_size) as [st0| | |] eqn:H0; cbn [bind];
    try discriminate.
  destruct (initial_state_inv _ _ _ _ H0) as (_ & _ & _ & _ & Hhit & _).
  intros Hfree Hwalk Hd Hfuel.
  destruct (run_to_budget map map_rows map_cols tile_size max_distance (step_dir_of direction)
              (step_of (vx direction)) (step_of (vy direction)) n fuel st0 sn
              Hwf Hhit Hfree Hwalk Hd Hfuel) as [Hrun Hsn].
  rewrite Hrun. cbn [bind]. now rewrite Hsn.
Qed.

(** X5. A hit does not depend on the budget it was found with: a call
    that returns a distance other than its budget returns the same
    distance with every budget that is not smaller. *)
Theorem castRayDDA_hit_with_larger_budget (fuel : nat) (start_pos direction : Vector2)
  (map : Map) (map_rows map_cols : Z) (tile_size max1 max2 result : float) :
  castRayDDA fuel start_pos direction map map_rows map_cols tile_size max1 = Returns result ->
  result <> max1 ->
  F32.leb max1 max2 = true ->
  castRayDDA fuel start_pos direction map map_rows map_cols tile_size max2 = Returns result.
Proof.
  unfold castRayDDA, cast_ray.
  destruct (initial_state start_pos direction tile_size) as [st0| | |]; cbn [bind];
    try discriminate.
  destruct (traverse _ _ _ _ _ max1 _ _ _ fuel st0) as [sf| | |] eqn:Hrun; cbn [bind];
    try discriminate.
  intros [= <-] Hne Hle.
  destruct (has_hit_wall sf) eqn:Hsf; [|congruence].
  rewrite (run_hit_larger_budget _ _ _ _ _ _ _ _ _ _ _ _ Hle Hrun Hsf). cbn [bind].
  now rewrite Hsf.
Qed.

(** ** The direction (0, 0) *)





(** ** Only the flag 1 is a wall *)

Lemma same_walls_occupied (map1 map2 : Map) (map_rows map_cols row col : Z) :
  same_walls map1 map2 map_rows map_cols = true ->
  0 <= row < map_rows -> 0 <= col < map_cols ->
  occupied map1 row col = occupied map2 row col.
Proof.
  unfold same_walls. rewrite forallb_forall. intros Hall Hr Hc.
  specialize (Hall row (proj2 (in_indices map_rows row) Hr)).
  rewrite forallb_forall in Hall.
  specialize (Hall col (proj2 (in_indices map_cols col) Hc)).
  now apply Bool.eqb_prop.
Qed.

Lemma body_same_walls (map1 map2 : Map) (map_rows map_cols : Z) (tile_size : float)
  (step_dir : Vector2) (step_x step_y : Z) (st : RayState) :
  well_formed map1 map_rows map_cols = true ->
  well_formed map2 map_rows map_cols = true ->
  same_walls map1 map2 map_rows map_cols = true ->
  loop_body F32.ltb map1 map_rows map_cols tile_size step_dir step_x step_y st
  = loop_body F32.ltb map2 map_rows map_cols tile_size step_dir step_x step_y st.
Proof.
  intros Hwf1 Hwf2 Hsame. unfold loop_body.
  destruct (if F32.ltb _ _ then _ else _) as [[[[x' y'] d] len]| | |]; cbn [bind];
    try reflexivity.
  destruct ((x' >=? 0) && (x' <? map_cols) && (y' >=? 0) && (y' <? map_rows)) eqn:Hin;
    [|reflexivity].
  rewrite !andb_true_iff, !Z.geb_le, !Z.ltb_lt in Hin.
  assert (Hocc := same_walls_occupied map1 map2 map_rows map_cols y' x' Hsame
                    ltac:(lia) ltac:(lia)).
  unfold occupied in Hocc.
  destruct (read_in_bounds map1 _ _ y' x' Hwf1) as [c1 H1]; [lia|lia|].
  destruct (read_in_bounds map2 _ _ y' x' Hwf2) as [c2 H2]; [lia|lia|].
  rewrite H1, H2 in *. now rewrite Hocc.
Qed.

(** X11. Only the flag 1 is a wall: on two grids of the same size whose
    cells hold 1 at the same places, whatever the other cells hold, the
    call has the same outcome, for every ray and every budget. *)
Theorem castRayDDA_same_walls (fuel : nat) (start_pos direction : Vector2)
  (map1 map2 : Map) (map_rows map_cols : Z) (tile_size max_distance : float) :
  well_formed map1 map_rows map_cols = true ->
  well_formed map2 map_rows map_cols = true ->
  same_walls map1 map2 map_rows map_cols = true ->
  castRayDDA fuel start_pos direction map1 map_rows map_cols tile_size max_distance
  = castRayDDA fuel start_pos direction map2 map_rows map_cols tile_size max_distance.
Proof.
  intros Hwf1 Hwf2 Hsame. unfold castRayDDA, cast_ray.
  destruct (initial_state start_pos direction tile_size) as [st0| | |]; cbn [bind];
    try reflexivity.
  assert (Hrun : forall st,
             traverse F32.ltb map1 map_rows map_cols tile_size max_distance
               (step_dir_of direction) (step_of (vx direction)) (step_of (vy direction))
               fuel st
             = traverse F32.ltb map2 map_rows map_cols tile_size max_distance
                 (step_dir_of direction) (step_of (vx direction)) (step_of (vy direction))
                 fuel st).
  { induction fuel as [|fuel IH]; intro st; cbn [traverse]; [reflexivity|].
    destruct (running max_distance st); [|reflexivity].
    rewrite (body_same_walls map1 map2 map_rows map_cols tile_size _ _ _ st Hwf1 Hwf2 Hsame).
    destruct (loop_body _ _ _ _ _ _ _ _ st) as [st'| | |]; cbn [bind]; try reflexivity.
    apply IH. }
  now rewrite Hrun.
Qed.

(** ** Origins and cell sizes without a starting cell *)

(** A quotient by a zero, or of an infinity or a NaN, is an infinity or
    a NaN, which the conversion to [int] does not define. *)
Lemma start_index_undefined (pos tile_size : float) :
  F32.is_finite pos = false \/ F32.eqb tile_size F32.zero = true ->
  float_to_int (F32.div pos tile_size) = Undefined.
Proof.
  intros [Hpos|Htile].
  - destruct pos as [s|s| |s m e]; try discriminate;
      destruct tile_size as [s'|s'| |s' m' e']; reflexivity.
  - destruct tile_size as [s'|s'| |s' m' e'].
    + destruct pos as [s|s| |s m e]; reflexivity.
    + destruct s'; discriminate.
    + discriminate.
    + destruct s'; discriminate.
Qed.

Lemma float_to_int_outcomes (f : float) :
  (exists n, float_to_int f = Returns n) \/ float_to_int f = Undefined.
Proof.
  unfold float_to_int. destruct (F32.trunc f) as [n|]; [|now right].
  destruct (in_int n); [left; now exists n|now right].
Qed.

(** X12. Without a starting cell there is no result: when a coordinate
    of the origin is an infinity or a NaN, or the cell size is zero, the
    conversion [(int)(start_pos / tile_size)] is undefined, for every
    direction, grid and budget, before any cell is read. *)
Theorem castRayDDA_undefined_start (fuel : nat) (start_pos direction : Vector2) (map : Map)
  (map_rows map_cols : Z) (tile_size max_distance : float) :
  F32.is_finite (vx start_pos) = false
  \/ F32.is_finite (vy start_pos) = false
  \/ F32.eqb tile_size F32.zero = true ->
  castRayDDA fuel start_pos direction map map_rows map_cols tile_size max_distance
  = Undefined.
Proof.
  intro Hbad. unfold castRayDDA, cast_ray, initial_state.
  destruct (float_to_int_outcomes (F32.div (vx start_pos) tile_size)) as [[x0 Hx]|Hx];
    rewrite Hx; cbn [bind]; [|reflexivity].
  assert (Hy : float_to_int (F32.div (vy start_pos) tile_size) = Undefined).
  { destruct Hbad as [Hbad|[Hbad|Hbad]].
    - rewrite (start_index_undefined (vx start_pos) tile_size) in Hx by now left.
      discriminate.
    - apply start_index_undefined. now left.
    - apply start_index_undefined. now right. }
  now rewrite Hy.
Qed.

(** * main: the grid *)

Lemma length_set_nth {A : Type} (n : nat) (a : A) (l : list A) :
  length (set_nth n a l) = length l.
Proof.
  revert n. induction l as [|h t IH]; intro n; [reflexivity|].
  destruct n as [|n]; cbn; [reflexivity|]. now rewrite IH.
Qed.

Lemma forallb_set_nth {A : Type} (p : A -> bool) (n : nat) (a : A) (l : list A) :
  forallb p l = true -> p a = true -> forallb p (set_nth n a l) = true.
Proof.
  revert n. induction l as [|h t IH]; intros n Hl Ha; [reflexivity|].
  cbn in Hl. apply andb_true_iff in Hl. destruct Hl as [Hh Ht].
  destruct n as [|n]; cbn; [now rewrite Ha|]. rewrite Hh. now apply IH.
Qed.

Lemma well_formed_set_cell (map : Map) (map_rows map_cols row col flag : Z) :
  well_formed map map_rows map_cols = true ->
  well_formed (set_cell row col flag map) map_rows map_cols = true.
Proof.
  intro Hwf. unfold set_cell. destruct ((row <? 0) || (col <? 0)); [exact Hwf|].
  destruct (Nat.lt_ge_cases (Z.to_nat row) (length map)) as [Hin|Hout].
  - unfold well_formed in *. apply andb_true_iff in Hwf. destruct Hwf as [Hrows Hcols].
    apply andb_true_iff. split.
    + now rewrite length_set_nth.
    + apply forallb_set_nth; [exact Hcols|]. rewrite length_set_nth.
      rewrite forallb_forall in Hcols. apply Hcols. now apply nth_In.
  - now rewrite set_nth_beyond by exact Hout.
Qed.

Lemma read_set_cell_same (map : Map) (row col flag old : Z) :
  read map row col = Some old -> read (set_cell row col flag map) row col = Some flag.
Proof.
  unfold read, set_cell. destruct ((row <? 0) || (col <? 0)); [discriminate|].
  destruct (nth_error map (Z.to_nat row)) as [cells|] eqn:Hn; [|discriminate].
  intro Hc.
  assert (Hrow : (Z.to_nat row < length map)%nat) by (apply nth_error_Some; congruence).
  assert (Hcol : (Z.to_nat col < length cells)%nat) by (apply nth_error_Some; congruence).
  rewrite nth_error_set_nth_same by exact Hrow.
  rewrite (nth_error_nth _ _ _ Hn). now apply nth_error_set_nth_same.
Qed.

Lemma write_in_bounds (map : Map) (map_rows map_cols row col flag : Z) :
  well_formed map map_rows map_cols = true ->
  0 <= row < map_rows -> 0 <= col < map_cols ->
  Main.write map row col flag = Returns (set_cell row col flag map).
Proof.
  intros Hwf Hr Hc. unfold Main.write.
  now destruct (read_in_bounds map map_rows map_cols row col Hwf Hr Hc) as [cell ->].
Qed.

(** Two grids of the same size with the same cells are the same grid. *)
Lemma grid_ext (map1 map2 : Map) (map_rows map_cols : Z) :
  well_formed map1 map_rows map_cols = true ->
  well_formed map2 map_rows map_cols = true ->
  (forall row col, 0 <= row < map_rows -> 0 <= col < map_cols ->
     read map1 row col = read map2 row col) ->
  map1 = map2.
Proof.
  unfold well_formed. rewrite !andb_true_iff, !Z.eqb_eq, !forallb_forall.
  intros [Hr1 Hc1] [Hr2 Hc2] Hsame. apply nth_error_ext. intro i.
  destruct (Nat.lt_ge_cases i (length map1)) as [Hin|Hout].
  - destruct (nth_error map1 i) as [cells1|] eqn:H1;
      [|apply nth_error_None in H1; lia].
    destruct (nth_error map2 i) as [cells2|] eqn:H2;
      [|apply nth_error_None in H2; lia].
    f_equal. apply nth_error_ext. intro j.
    pose proof (Hc1 cells1 (nth_error_In _ _ H1)) as L1. apply Z.eqb_eq in L1.
    pose proof (Hc2 cells2 (nth_error_In _ _ H2)) as L2. apply Z.eqb_eq in L2.
    destruct (Nat.lt_ge_cases j (length cells1)) as [Hjin|Hjout].
    + specialize (Hsame (Z.of_nat i) (Z.of_nat j)). unfold read in Hsame.
      replace (Z.of_nat i <? 0) with false in Hsame by (symmetry; apply Z.ltb_ge; lia).
      replace (Z.of_nat j <? 0) with false in Hsame by (symmetry; apply Z.ltb_ge; lia).
      cbn [orb] in Hsame. rewrite !Nat2Z.id, H1, H2 in Hsame. apply Hsame; lia.
    + transitivity (@None Z); [|symmetry]; apply nth_error_None; lia.
  - transitivity (@None (list Z)); [|symmetry]; apply nth_error_None; lia.
Qed.

Lemma read_initial_map (row col : Z) :
  0 <= row < Main.map_rows -> 0 <= col < Main.map_cols ->
  read Main.initial_map row col = Some 0.
Proof.
  unfold Main.map_rows, Main.map_cols. intros Hr Hc. unfold read, Main.initial_map.
  replace (row <? 0) with false by (symmetry; apply Z.ltb_ge; lia).
  replace (col <? 0) with false by (symmetry; apply Z.ltb_ge; lia).
  cbn [orb]. rewrite nth_error_repeat by (unfold Main.map_rows; lia).
  apply nth_error_repeat. unfold Main.map_cols. lia.
Qed.

(** ** Painting *)

(** X7. Painting and erasing: with the mouse over the tile
    [(tile_y, tile_x)] of the grid and a button down, that cell holds 1
    after a left click and 0 after a right click alone (the left button
    wins when both are down); every other cell is as before and the grid
    keeps its size. *)
Theorem paint_lookup (map : Map) (target_pos : Vector2) (left right : bool)
  (tile_x tile_y : Z) :
  well_formed map Main.map_rows Main.map_cols = true ->
  float_to_int (F32.div (vx target_pos) Main.tile_size) = Returns tile_x ->
  float_to_int (F32.div (vy target_pos) Main.tile_size) = Returns tile_y ->
  0 <= tile_x < Main.map_cols -> 0 <= tile_y < Main.map_rows ->
  left || right = true ->
  exists map',
    Main.paint map target_pos left right = Returns map'
    /\ well_formed map' Main.map_rows Main.map_cols = true
    /\ read map' tile_y tile_x = Some (if left then 1 else 0)
    /\ forall row col, row <> tile_y \/ col <> tile_x ->
         read map' row col = read map row col.
Proof.
  intros Hwf Hx Hy Hc Hr Hbutton.
  destruct (read_in_bounds map _ _ tile_y tile_x Hwf Hr Hc) as [old Hold].
  exists (set_cell tile_y tile_x (if left then 1 else 0) map).
  repeat split.
  - unfold Main.paint. rewrite Hx, Hy. cbn [bind].
    replace ((tile_x >=? 0) && (tile_x <? Main.map_cols)
             && (tile_y >=? 0) && (tile_y <? Main.map_rows)) with true
      by (symmetry; rewrite !andb_true_iff, !Z.geb_le, !Z.ltb_lt; lia).
    destruct left.
    + now apply (write_in_bounds map Main.map_rows Main.map_cols).
    + cbn [orb] in Hbutton. rewrite Hbutton.
      now apply (write_in_bounds map Main.map_rows Main.map_cols).
  - now apply well_formed_set_cell.
  - exact (read_set_cell_same _ _ _ _ _ Hold).
  - intros row col Hne. now apply read_set_cell_other.
Qed.

(** Painting keeps the size of the grid and accesses no cell outside it. *)
Lemma paint_safe (map : Map) (target_pos : Vector2) (left right : bool) :
  well_formed map Main.map_rows Main.map_cols = true ->
  Main.paint map target_pos left right <> BadRead
  /\ forall map', Main.paint map target_pos left right = Returns map' ->
       well_formed map' Main.map_rows Main.map_cols = true.
Proof.
  intro Hwf. unfold Main.paint.
  destruct (float_to_int_cases (F32.div (vx target_pos) Main.tile_size))
    as [->|(tx & -> & _)]; cbn [bind]; [split; [discriminate|intros ? [=]]|].
  destruct (float_to_int_cases (F32.div (vy target_pos) Main.tile_size))
    as [->|(ty & -> & _)]; cbn [bind]; [split; [discriminate|intros ? [=]]|].
  destruct ((tx >=? 0) && (tx <? Main.map_cols)
            && (ty >=? 0) && (ty <? Main.map_rows)) eqn:Hb.
  - rewrite !andb_true_iff, !Z.geb_le, !Z.ltb_lt in Hb.
    destruct left; [|destruct right].
    + rewrite (write_in_bounds map Main.map_rows Main.map_cols) by (assumption || lia).
      split; [discriminate|]. intros ? [= <-]. now apply well_formed_set_cell.
    + rewrite (write_in_bounds map Main.map_rows Main.map_cols) by (assumption || lia).
      split; [discriminate|]. intros ? [= <-]. now apply well_formed_set_cell.
    + split; [discriminate|]. now intros ? [= <-].
  - split; [discriminate|]. now intros ? [= <-].
Qed.

(** ** Clearing *)

Lemma clear_cells_spec (n : nat) (map : Map) (i j : Z) :
  well_formed map Main.map_rows Main.map_cols = true ->
  0 <= i < Main.map_rows -> 0 <= j -> j + Z.of_nat n = Main.map_cols ->
  exists map',
    Main.clear_cells map i n j = Returns map'
    /\ well_formed map' Main.map_rows Main.map_cols = true
    /\ (forall c, j <= c < Main.map_cols -> read map' i c = Some 0)
    /\ (forall r c, r <> i \/ c < j -> read map' r c = read map r c).
Proof.
  revert map j. induction n as [|n IH]; intros map j Hwf Hi Hj Hn.
  - exists map. repeat split; try assumption; try reflexivity. intros c Hc. lia.
  - cbn [Main.clear_cells].
    rewrite (write_in_bounds map Main.map_rows Main.map_cols) by (assumption || lia).
    cbn [bind].
    destruct (IH (set_cell i j 0 map) (j + 1)) as (map' & Hrun & Hwf' & Hzero & Hsame);
      [now apply well_formed_set_cell|assumption|lia|lia|].
    exists map'. repeat split; try assumption.
    + intros c Hc. destruct (Z.eq_dec c j) as [->|Hne].
      * rewrite Hsame by (right; lia).
        destruct (read_in_bounds map _ _ i j Hwf) as [old Hold]; [lia|lia|].
        exact (read_set_cell_same _ _ _ _ _ Hold).
      * apply Hzero. lia.
    + intros r c Hrc. rewrite Hsame by lia. apply read_set_cell_other. lia.
Qed.

Lemma clear_rows_spec (n : nat) (map : Map) (i : Z) :
  well_formed map Main.map_rows Main.map_cols = true ->
  0 <= i -> i + Z.of_nat n = Main.map_rows ->
  exists map',
    Main.clear_rows map n i = Returns map'
    /\ well_formed map' Main.map_rows Main.map_cols = true
    /\ (forall r c, i <= r < Main.map_rows -> 0 <= c < Main.map_cols ->
          read map' r c = Some 0)
    /\ (forall r c, r < i -> read map' r c = read map r c).
Proof.
  revert map i. induction n as [|n IH]; intros map i Hwf Hi Hn.
  - exists map. repeat split; try assumption; try reflexivity. intros r c Hr. lia.
  - cbn [Main.clear_rows].
    destruct (clear_cells_spec (Z.to_nat Main.map_cols) map i 0 Hwf)
      as (map1 & Hrun1 & Hwf1 & Hzero1 & Hsame1); [lia|lia|reflexivity|].
    rewrite Hrun1. cbn [bind].
    destruct (IH map1 (i + 1) Hwf1) as (map' & Hrun & Hwf' & Hzero & Hsame); [lia|lia|].
    exists map'. repeat split; try assumption.
    + intros r c Hr Hc. destruct (Z.eq_dec r i) as [->|Hne].
      * rewrite Hsame by lia. apply Hzero1. lia.
      * apply Hzero; lia.
    + intros r c Hr. rewrite Hsame by lia. apply Hsame1. lia.
Qed.

(** Clearing a grid gives the grid [main] starts with. *)
Lemma clear_spec (map : Map) :
  well_formed map Main.map_rows Main.map_cols = true ->
  Main.clear map = Returns Main.initial_map.
Proof.
  intro Hwf. unfold Main.clear.
  destruct (clear_rows_spec (Z.to_nat Main.map_rows) map 0 Hwf)
    as (map' & -> & Hwf' & Hzero & _); [lia|reflexivity|].
  f_equal. apply (grid_ext map' Main.initial_map Main.map_rows Main.map_cols).
  - exact Hwf'.
  - reflexivity.
  - intros r c Hr Hc. rewrite read_initial_map by assumption. apply Hzero; lia.
Qed.

Lemma cast_ray_no_bad_read (fuel : nat) (start_pos direction : Vector2) (map : Map)
  (map_rows map_cols : Z) (tile_size max_distance : float) :
  well_formed map map_rows map_cols = true ->
  castRayDDA fuel start_pos direction map map_rows map_cols tile_size max_distance <> BadRead.
Proof.
  intro Hwf. unfold castRayDDA, cast_ray.
  destruct (initial_state start_pos direction tile_size) as [st0| | |] eqn:H0; cbn [bind];
    try discriminate.
  - destruct (traverse _ _ _ _ _ _ _ _ _ fuel st0) as [st| | |] eqn:Ht; cbn [bind];
      try discriminate.
    now apply traverse_no_bad_read in Ht.
  - now apply initial_state_no_read in H0.
Qed.

Lemma update_grid_safe (inp : Main.Input) (map : Map) :
  well_formed map Main.map_rows Main.map_cols = true ->
  Main.update_grid inp map <> BadRead
  /\ forall map', Main.update_grid inp map = Returns map' ->
       well_formed map' Main.map_rows Main.map_cols = true.
Proof.
  intro Hwf. unfold Main.update_grid.
  destruct (paint_safe map (Main.mouse inp) (Main.left_button inp) (Main.right_button inp) Hwf)
    as [Hno Hkeep].
  destruct (Main.paint _ _ _ _) as [painted| | |]; cbn [bind];
    try (split; [discriminate || congruence|intros ? [=]]).
  specialize (Hkeep painted eq_refl).
  destruct (Main.key_c inp).
  - rewrite (clear_spec painted Hkeep). split; [discriminate|]. now intros ? [= <-].
  - split; [discriminate|]. now intros ? [= <-].
Qed.

(** X8. The frame loop keeps the grid: from a grid of 80 rows of 80
    cells a frame accesses no cell outside the grid, neither when it
    paints, nor when it clears, nor when it casts the ray, whatever the
    keys, the buttons and the position of the mouse; and the grid it
    leaves has 80 rows of 80 cells again. *)
Theorem frame_keeps_grid (fuel : nat) (inp : Main.Input) (w : Main.World) :
  well_formed (Main.grid w) Main.map_rows Main.map_cols = true ->
  Main.frame fuel inp w <> BadRead
  /\ forall w', Main.frame fuel inp w = Returns w' ->
       well_formed (Main.grid w') Main.map_rows Main.map_cols = true.
Proof.
  intro Hwf. unfold Main.frame.
  destruct (update_grid_safe inp (Main.grid w) Hwf) as [Hno Hkeep].
  destruct (Main.update_grid inp (Main.grid w)) as [map| | |]; cbn [bind];
    try (split; [discriminate || congruence|intros ? [=]]).
  specialize (Hkeep map eq_refl).
  pose proof (cast_ray_no_bad_read fuel (Main.move_origin inp (Main.origin_pos w))
                (Vector2Normalize
                   (Vector2Subtract (Main.mouse inp)
                      (Main.move_origin inp (Main.origin_pos w))))
                map Main.map_rows Main.map_cols Main.tile_size Main.max_ray_len Hkeep) as Hray.
  destruct (castRayDDA _ _ _ _ _ _ _ _) as [d| | |]; cbn [bind];
    (split; [discriminate || congruence|]); intros w' Hw'; try discriminate.
  injection Hw' as Hw'. subst w'. exact Hkeep.
Qed.

(** X9. The key [C] wins over the mouse: in a frame with [C] pressed
    the grid becomes the grid [main] starts with, all cells 0, also when
    a button paints in the same frame; and the distance that frame
    reports is the budget [max_ray_len]. *)
Theorem frame_clears (fuel : nat) (inp : Main.Input) (w : Main.World) (painted : Map) :
  well_formed (Main.grid w) Main.map_rows Main.map_cols = true ->
  Main.key_c inp = true ->
  Main.paint (Main.grid w) (Main.mouse inp) (Main.left_button inp) (Main.right_button inp)
  = Returns painted ->
  Main.update_grid inp (Main.grid w) = Returns Main.initial_map
  /\ forall w', Main.frame fuel inp w = Returns w' ->
       Main.grid w' = Main.initial_map
       /\ Main.intersection_distance w' = Main.max_ray_len.
Proof.
  intros Hwf Hc Hpaint.
  assert (Hup : Main.update_grid inp (Main.grid w) = Returns Main.initial_map).
  { unfold Main.update_grid. rewrite Hpaint, Hc. cbn [bind].
    apply clear_spec.
    exact (proj2 (paint_safe _ _ _ _ Hwf) painted Hpaint). }
  split; [exact Hup|].
  intros w'. unfold Main.frame. rewrite Hup. cbn [bind].
  destruct (castRayDDA _ _ _ _ _ _ _ _) as [d| | |] eqn:Hd; cbn [bind]; try discriminate.
  intro Hw'. injection Hw' as Hw'. subst w'.
  cbn [Main.grid Main.intersection_distance]. split; [reflexivity|].
  apply (castRayDDA_open_grid_returns _ _ _ _ _ _ _ _ _ (eq_refl : unoccupied Main.initial_map = true) Hd).
Qed.

(** ** Drawing the tiles *)

(** The corner of a tile of the grid, in pixels: the product is exact. *)
Lemma tile_corner (j : Z) :
  0 <= j < 80 ->
  float_to_int (F32.mul (F32.of_int j) Main.tile_size) = Returns (20 * j).
Proof.
  intro Hj.
  assert (Hall : forallb (fun k => match float_to_int (F32.mul (F32.of_int k) Main.tile_size) with
                                   | Returns v => v =? 20 * k
                                   | _ => false
                                   end) (indices 80) = true) by (vm_compute; reflexivity).
  rewrite forallb_forall in Hall. specialize (Hall j (proj2 (in_indices 80 j) Hj)).
  destruct (float_to_int _) as [v| | |]; try discriminate.
  apply Z.eqb_eq in Hall. now subst v.
Qed.

Lemma draw_cells_spec (n : nat) (map : Map) (i j : Z) :
  well_formed map Main.map_rows Main.map_cols = true ->
  0 <= i < Main.map_rows -> 0 <= j -> j + Z.of_nat n = Main.map_cols ->
  Main.draw_cells map i n j
  = Returns (List.map (Main.tile_rectangle i)
               (filter (fun col => occupied map i col)
                  (List.map Z.of_nat (seq (Z.to_nat j) n)))).
Proof.
  intros Hwf Hi. revert j. induction n as [|n IH]; intros j Hj Hn; [reflexivity|].
  cbn [Main.draw_cells seq List.map filter].
  destruct (read_in_bounds map _ _ i j Hwf) as [cell Hc]; [lia|lia|].
  assert (Hocc : occupied map i j = (cell =? 1)) by (unfold occupied; now rewrite Hc).
  rewrite Hc. cbn [bind].
  rewrite (IH (j + 1)) by lia.
  replace (Z.to_nat (j + 1)) with (S (Z.to_nat j)) by lia.
  rewrite Z2Nat.id by lia. rewrite Hocc.
  destruct (cell =? 1); cbn [bind]; [|reflexivity].
  rewrite (tile_corner j), (tile_corner i)
    by (unfold Main.map_rows, Main.map_cols in *; lia).
  reflexivity.
Qed.

Lemma draw_rows_spec (n : nat) (map : Map) (i : Z) :
  well_formed map Main.map_rows Main.map_cols = true ->
  0 <= i -> i + Z.of_nat n = Main.map_rows ->
  Main.draw_rows map n i
  = Returns (flat_map (fun row => List.map (Main.tile_rectangle row)
                                    (walls_in_row map Main.map_cols row))
               (List.map Z.of_nat (seq (Z.to_nat i) n))).
Proof.
  intro Hwf. revert i. induction n as [|n IH]; intros i Hi Hn; [reflexivity|].
  cbn [Main.draw_rows seq List.map flat_map].
  rewrite (draw_cells_spec (Z.to_nat Main.map_cols) map i 0 Hwf) by (reflexivity || lia).
  cbn [bind]. rewrite (IH (i + 1)) by lia. cbn [bind].
  replace (Z.to_nat (i + 1)) with (S (Z.to_nat i)) by lia.
  now rewrite Z2Nat.id by lia.
Qed.

Lemma map_flat_map {A B C : Type} (f : B -> C) (g : A -> list B) (l : list A) :
  List.map f (flat_map g l) = flat_map (fun a => List.map f (g a)) l.
Proof.
  induction l as [|a l IH]; [reflexivity|].
  cbn [flat_map]. now rewrite List.map_app, IH.
Qed.

(** X10. The tiles that are drawn are the walls: on a grid of 80 rows
    of 80 cells the drawing loops read no cell outside the grid and call
    [DrawRectangle] exactly once for every cell that holds 1, row by row
    and in each row from left to right, with the square of side 20 whose
    corner is at (20 * column, 20 * row). *)
Theorem draw_tiles_walls (map : Map) :
  well_formed map Main.map_rows Main.map_cols = true ->
  Main.draw_tiles map
  = Returns (List.map (fun cell => Main.tile_rectangle (fst cell) (snd cell))
               (Main.walls map)).
Proof.
  intro Hwf. unfold Main.draw_tiles, Main.walls.
  rewrite (draw_rows_spec (Z.to_nat Main.map_rows) map 0 Hwf) by (reflexivity || lia).
  f_equal. rewrite map_flat_map. unfold indices. apply flat_map_ext. intro row.
  rewrite List.map_map. reflexivity.
Qed.

(** * The extras on concrete rays and frames *)

(** X1 at a budget of zero in the scenario. *)
Lemma castRayDDA_spent_budget_witness :
  initial_state Scenario.start_pos unit_x Scenario.tile_size = Returns Scenario.entry
  /\ F32.ltb F32.zero (fl 0) = false
  /\ castRayDDA 0 Scenario.start_pos unit_x Scenario.map 80 80 Scenario.tile_size (fl 0)
     = Returns (fl 0).
Proof.
  repeat (split; [vm_compute; reflexivity|]).
  apply (castRayDDA_spent_budget 0 Scenario.start_pos unit_x Scenario.map 80 80
           Scenario.tile_size (fl 0) Scenario.entry); vm_compute; reflexivity.
Defined.

(** X2 at the wall just beyond the budget: the distance 10 is the
    distance of an advance into a wall. *)
Lemma castRayDDA_hit_is_first_wall_witness :
  castRayDDA 10 Overshoot.start_pos unit_x Overshoot.map 1 2
    Overshoot.tile_size Overshoot.max_distance = Returns (fl 10)
  /\ fl 10 <> Overshoot.max_distance
  /\ exists n sn st',
       (n < 10)%nat
       /\ ray_free_run Overshoot.start_pos unit_x Overshoot.map 1 2
            Overshoot.tile_size Overshoot.max_distance n = true
       /\ ray_walk Overshoot.start_pos unit_x Overshoot.tile_size n = Returns sn
       /\ F32.ltb (distance sn) Overshoot.max_distance = true
       /\ ray_walk Overshoot.start_pos unit_x Overshoot.tile_size (S n) = Returns st'
       /\ entered_wall Overshoot.map 1 2 st' = true
       /\ fl 10 = distance st'.
Proof.
  split; [vm_compute; reflexivity|]. split; [vm_compute; discriminate|].
  apply (castRayDDA_hit_is_first_wall 10 Overshoot.start_pos unit_x Overshoot.map 1 2
           Overshoot.tile_size Overshoot.max_distance (fl 10)).
  - vm_compute. reflexivity.
  - vm_compute. discriminate.
Defined.

(** X3 in the scenario: four advances through free cells, the fifth
    into the wall of column 25. *)
Lemma castRayDDA_finds_first_wall_witness :
  well_formed Scenario.map 80 80 = true
  /\ ray_free_run Scenario.start_pos unit_x Scenario.map 80 80
       Scenario.tile_size Scenario.max_distance 4 = true
  /\ ray_walk Scenario.start_pos unit_x Scenario.tile_size 4
     = Returns (mkRayState 24 20 (mkVector2 (fl 100) infinity) false (fl 80))
  /\ ray_walk Scenario.start_pos unit_x Scenario.tile_size 5
     = Returns (mkRayState 25 20 (mkVector2 (fl 120) infinity) false (fl 100))
  /\ castRayDDA 5 Scenario.start_pos unit_x Scenario.map 80 80
       Scenario.tile_size Scenario.max_distance = Returns (fl 100).
Proof.
  repeat (split; [vm_compute; reflexivity|]).
  apply (castRayDDA_finds_first_wall 5 4 Scenario.start_pos unit_x Scenario.map 80 80
           Scenario.tile_size Scenario.max_distance
           (mkRayState 24 20 (mkVector2 (fl 100) infinity) false (fl 80))
           (mkRayState 25 20 (mkVector2 (fl 120) infinity) false (fl 100)));
    vm_compute; reflexivity.
Defined.

(** X4 in the scenario, along the y axis: fifty rows of column 20 are
    free, and the budget of 1000 is used up at the fiftieth boundary. *)
Lemma castRayDDA_misses_witness :
  well_formed Scenario.map 80 80 = true
  /\ ray_free_run Scenario.start_pos unit_y Scenario.map 80 80
       Scenario.tile_size Scenario.max_distance 50 = true
  /\ ray_walk Scenario.start_pos unit_y Scenario.tile_size 50
     = Returns (mkRayState 20 70 (mkVector2 infinity (fl 1020)) false (fl 1000))
  /\ castRayDDA 50 Scenario.start_pos unit_y Scenario.map 80 80
       Scenario.tile_size Scenario.max_distance = Returns Scenario.max_distance.
Proof.
  repeat (split; [vm_compute; reflexivity|]).
  apply (castRayDDA_misses 50 50 Scenario.start_pos unit_y Scenario.map 80 80
           Scenario.tile_size Scenario.max_distance
           (mkRayState 20 70 (mkVector2 infinity (fl 1020)) false (fl 1000)));
    vm_compute; reflexivity.
Defined.

(** X5 at the wall just beyond the budget of 5: the budget 1000 gives
    the same distance. *)
Lemma castRayDDA_hit_with_larger_budget_witness :
  castRayDDA 10 Overshoot.start_pos unit_x Overshoot.map 1 2
    Overshoot.tile_size Overshoot.max_distance = Returns (fl 10)
  /\ fl 10 <> Overshoot.max_distance
  /\ F32.leb Overshoot.max_distance (fl 1000) = true
  /\ castRayDDA 10 Overshoot.start_pos unit_x Overshoot.map 1 2
       Overshoot.tile_size (fl 1000) = Returns (fl 10).
Proof.
  split; [vm_compute; reflexivity|]. split; [vm_compute; discriminate|].
  split; [vm_compute; reflexivity|].
  apply (castRayDDA_hit_with_larger_budget 10 Overshoot.start_pos unit_x Overshoot.map 1 2
           Overshoot.tile_size Overshoot.max_distance (fl 1000) (fl 10)).
  - vm_compute. reflexivity.
  - vm_compute. discriminate.
  - vm_compute. reflexivity.
Defined.


(** ** Frames *)

(** X7 at a left click on the tile of row 20, column 20. *)
Lemma paint_lookup_witness :
  well_formed Main.initial_map Main.map_rows Main.map_cols = true
  /\ float_to_int (F32.div (fl 405) Main.tile_size) = Returns 20
  /\ float_to_int (F32.div (fl 410) Main.tile_size) = Returns 20
  /\ exists map',
       Main.paint Main.initial_map (vec 405 410) true false = Returns map'
       /\ well_formed map' Main.map_rows Main.map_cols = true
       /\ read map' 20 20 = Some 1
       /\ forall row col, row <> 20 \/ col <> 20 ->
            read map' row col = read Main.initial_map row col.
Proof.
  repeat (split; [vm_compute; reflexivity|]).
  apply (paint_lookup Main.initial_map (vec 405 410) true false 20 20);
    try (vm_compute; reflexivity); unfold Main.map_cols, Main.map_rows; lia.
Defined.

(** X8 at a click in the first frame. *)
Lemma frame_keeps_grid_witness :
  well_formed (Main.grid Frame.start) Main.map_rows Main.map_cols = true
  /\ Main.frame 200 Frame.click Frame.start <> BadRead
  /\ forall w', Main.frame 200 Frame.click Frame.start = Returns w' ->
       well_formed (Main.grid w') Main.map_rows Main.map_cols = true.
Proof.
  split; [vm_compute; reflexivity|].
  apply (frame_keeps_grid 200 Frame.click Frame.start). vm_compute. reflexivity.
Defined.

(** X9 at a click with [C] pressed: the painted tile is cleared in the
    same frame. *)
Lemma frame_clears_witness :
  well_formed (Main.grid Frame.start) Main.map_rows Main.map_cols = true
  /\ Main.key_c Frame.click_and_clear = true
  /\ Main.paint (Main.grid Frame.start) (Main.mouse Frame.click_and_clear)
       (Main.left_button Frame.click_and_clear) (Main.right_button Frame.click_and_clear)
     = Returns (set_cell 20 20 1 Main.initial_map)
  /\ Main.update_grid Frame.click_and_clear (Main.grid Frame.start)
     = Returns Main.initial_map
  /\ forall w', Main.frame 200 Frame.click_and_clear Frame.start = Returns w' ->
       Main.grid w' = Main.initial_map
       /\ Main.intersection_distance w' = Main.max_ray_len.
Proof.
  repeat (split; [vm_compute; reflexivity|]).
  apply (frame_clears 200 Frame.click_and_clear Frame.start
           (set_cell 20 20 1 Main.initial_map)); vm_compute; reflexivity.
Defined.

(** X10 on the grid of the scenario: one rectangle, at (500, 400). *)
Lemma draw_tiles_walls_witness :
  well_formed Scenario.map Main.map_rows Main.map_cols = true
  /\ Main.walls Scenario.map = [(20, 25)]
  /\ Main.draw_tiles Scenario.map = Returns [Main.mkRectangle 500 400 20 20].
Proof.
  repeat (split; [vm_compute; reflexivity|]).
  assert (Hwalls : List.map (fun cell => Main.tile_rectangle (fst cell) (snd cell))
                     (Main.walls Scenario.map) = [Main.mkRectangle 500 400 20 20])
    by (vm_compute; reflexivity).
  rewrite <- Hwalls.
  apply (draw_tiles_walls Scenario.map). vm_compute. reflexivity.
Defined.

(** X11 in the scenario: a cell that holds 7, on the way of the ray, is
    no wall. *)
Lemma castRayDDA_same_walls_witness :
  well_formed Scenario.map 80 80 = true
  /\ well_formed (set_cell 20 22 7 Scenario.map) 80 80 = true
  /\ same_walls Scenario.map (set_cell 20 22 7 Scenario.map) 80 80 = true
  /\ castRayDDA 100 Scenario.start_pos unit_x Scenario.map 80 80
       Scenario.tile_size Scenario.max_distance
     = castRayDDA 100 Scenario.start_pos unit_x (set_cell 20 22 7 Scenario.map) 80 80
         Scenario.tile_size Scenario.max_distance.
Proof.
  repeat (split; [vm_compute; reflexivity|]).
  apply (castRayDDA_same_walls 100 Scenario.start_pos unit_x Scenario.map
           (set_cell 20 22 7 Scenario.map) 80 80 Scenario.tile_size Scenario.max_distance);
    vm_compute; reflexivity.
Defined.

(** X12 in the scenario with cells of size zero. *)
Lemma castRayDDA_undefined_start_witness :
  F32.eqb (fl 0) F32.zero = true
  /\ castRayDDA 100 Scenario.start_pos unit_x Scenario.map 80 80 (fl 0)
       Scenario.max_distance = Undefined.
Proof.
  split; [vm_compute; reflexivity|].
  apply (castRayDDA_undefined_start 100 Scenario.start_pos unit_x Scenario.map 80 80
           (fl 0) Scenario.max_distance).
  right. right. vm_compute. reflexivity.
Defined.
